(** * Video-to-prompt generator: frame sampling and image statistics

    A shallow embedding of the engineering core of the page component
    (scene count, capture points, frame analysis, prompt compilation, time
    formatting and the seek promise), followed by the properties of the
    written specification that were checked against it.

    Numbers.  A JavaScript number is modelled as an exact rational or one of
    the three non-finite values; rounding of IEEE doubles and the sign of
    zero are not modelled.  Values that are integers by construction (canvas
    dimensions, byte indices, loop counters) are [Z].

    The exact model and the doubles part ways only where a rounded
    intermediate value falls on the other side of a comparison or of a
    [Math.round] or [Math.floor] step: the scene count at a rounding tie of
    [(duration / 20) * (granularity + 1)], the hundredths printed by
    [formatTime], the saturation and the hue of [rgbToHsl] and the labels
    chosen at a threshold of [describeColor] and [analyzeFrame].  The scene
    count is therefore also evaluated in binary64 ([sceneCount_binary64]),
    and the properties that a rounding error could affect are stated with
    the tolerance [rounding_margin].

    Text.  Strings are sequences of bytes; case mapping is that of the ASCII
    letters, which covers the option lists of the page. *)

From Stdlib Require Import ZArith QArith Qround Qminmax Qabs Lia Lqa.
From Stdlib Require Import List Bool Ascii String DecimalString.
From Stdlib Require Import SpecFloat.
Import ListNotations.

Local Open Scope Q_scope.

(** ** JavaScript numbers *)

Inductive number : Type :=
| Fin (q : Q)
| PInf
| NInf
| NaN.

Definition Qltb (a b : Q) : bool := negb (Qle_bool b a).

Definition of_Z (z : Z) : number := Fin (inject_Z z).

(** Truthiness of a number: everything but 0 and NaN. *)
Definition truthy (x : number) : bool :=
  match x with
  | Fin q => negb (Qeq_bool q 0)
  | PInf | NInf => true
  | NaN => false
  end.

Definition Number_isFinite (x : number) : bool :=
  match x with Fin _ => true | _ => false end.

Definition nadd (x y : number) : number :=
  match x, y with
  | NaN, _ | _, NaN => NaN
  | Fin a, Fin b => Fin (a + b)
  | PInf, NInf | NInf, PInf => NaN
  | PInf, _ | _, PInf => PInf
  | NInf, _ | _, NInf => NInf
  end.

Definition nneg (x : number) : number :=
  match x with
  | Fin a => Fin (- a)
  | PInf => NInf
  | NInf => PInf
  | NaN => NaN
  end.

Definition nsub (x y : number) : number := nadd x (nneg y).

(** Sign of a product or quotient with an infinite operand. *)
Definition signed_inf (positive : bool) : number :=
  if positive then PInf else NInf.

Definition nmul (x y : number) : number :=
  match x, y with
  | NaN, _ | _, NaN => NaN
  | Fin a, Fin b => Fin (a * b)
  | Fin a, PInf | PInf, Fin a =>
      if Qeq_bool a 0 then NaN else signed_inf (Qltb 0 a)
  | Fin a, NInf | NInf, Fin a =>
      if Qeq_bool a 0 then NaN else signed_inf (Qltb a 0)
  | PInf, PInf | NInf, NInf => PInf
  | PInf, NInf | NInf, PInf => NInf
  end.

Definition ndiv (x y : number) : number :=
  match x, y with
  | NaN, _ | _, NaN => NaN
  | Fin a, Fin b =>
      if Qeq_bool b 0
      then (if Qeq_bool a 0 then NaN else signed_inf (Qltb 0 a))
      else Fin (a / b)
  | Fin _, PInf | Fin _, NInf => Fin 0
  | PInf, Fin b => signed_inf (Qle_bool 0 b)
  | NInf, Fin b => signed_inf (Qltb b 0)
  | _, _ => NaN
  end.

(** Integer part, rounding toward zero. *)
Definition Qtrunc (a : Q) : Z :=
  if Qle_bool 0 a then Qfloor a else Qceiling a.

(** The remainder [a % b] of two finite numbers, [b] not zero: the result
    has the sign of the dividend. *)
Definition Qrem (a b : Q) : Q := a - b * inject_Z (Qtrunc (a / b)).

Definition nrem (x y : number) : number :=
  match x, y with
  | Fin a, Fin b => if Qeq_bool b 0 then NaN else Fin (Qrem a b)
  | Fin a, PInf | Fin a, NInf => Fin a
  | _, _ => NaN
  end.

Definition Math_abs (x : number) : number :=
  match x with
  | Fin a => Fin (Qabs a)
  | PInf | NInf => PInf
  | NaN => NaN
  end.

(** Comparison operators; every comparison with NaN is false. *)
Definition nlt (x y : number) : bool :=
  match x, y with
  | NaN, _ | _, NaN => false
  | Fin a, Fin b => Qltb a b
  | NInf, NInf | PInf, _ => false
  | NInf, _ => true
  | Fin _, PInf => true
  | Fin _, NInf => false
  end.

Definition ngt (x y : number) : bool := nlt y x.

Definition nle (x y : number) : bool :=
  match x, y with
  | NaN, _ | _, NaN => false
  | Fin a, Fin b => Qle_bool a b
  | NInf, _ | _, PInf => true
  | _, _ => false
  end.

Definition nge (x y : number) : bool := nle y x.

(** Strict equality [===] on numbers. *)
Definition strict_eq (x y : number) : bool :=
  match x, y with
  | Fin a, Fin b => Qeq_bool a b
  | PInf, PInf | NInf, NInf => true
  | _, _ => false
  end.

(** [Math.max] and [Math.min] of two arguments. *)
Definition Math_max (x y : number) : number :=
  match x, y with
  | NaN, _ | _, NaN => NaN
  | _, _ => if nlt x y then y else x
  end.

Definition Math_min (x y : number) : number :=
  match x, y with
  | NaN, _ | _, NaN => NaN
  | _, _ => if nlt y x then y else x
  end.

(** [Math.round]: nearest integer, halves toward plus infinity. *)
Definition Math_round (x : number) : number :=
  match x with
  | Fin a => of_Z (Qfloor (a + (1 # 2)))
  | _ => x
  end.

Declare Scope num_scope.
Delimit Scope num_scope with num.
Bind Scope num_scope with number.
Infix "+" := nadd : num_scope.
Infix "-" := nsub : num_scope.
Infix "*" := nmul : num_scope.
Infix "/" := ndiv : num_scope.

(** ** Scene count (the [sceneCount] memo) *)

Record VideoMeta : Type := mkVideoMeta {
  duration : number;
  width : Z;
  height : Z
}.

Definition maxSceneSamples : number := of_Z 10.

(** [handleVideoLoaded]: metadata is stored only when the element reports a
    truthy duration; otherwise the previous state is kept. *)
Definition handleVideoLoaded
    (video_duration : number) (videoWidth videoHeight : Z)
    (videoMeta : option VideoMeta) : option VideoMeta :=
  if truthy video_duration
  then Some (mkVideoMeta video_duration videoWidth videoHeight)
  else videoMeta.

Definition sceneCount (videoMeta : option VideoMeta) (granularity : number)
  : number :=
  match videoMeta with
  | None => of_Z 0
  | Some meta =>
      let duration := duration meta in
      let base :=
        Math_max (of_Z 3)
            (Math_round ((duration / of_Z 20) * (granularity + of_Z 1))%num) in
      Math_min maxSceneSamples base
  end.

(** *** The scene count in double precision

    The same expression evaluated as the engine evaluates it: a division
    and a multiplication in IEEE binary64 (53 bits of precision, rounding to
    nearest with ties to even), as specified by the standard library's
    [SFdiv] and [SFmul].  [Math.round], [Math.max] and [Math.min] are exact
    on doubles, so they are applied to the exact value of the product.  The
    stored metadata is represented by its duration, the one field the memo
    reads. *)




(** ** Capture points *)

(** The body of the [for] loop of [buildCapturePoints], run [k] times from
    index [i]. *)
Fixpoint capture_loop (k : nat) (i : Z) (duration step : number)
    (points : list number) : list number :=
  match k with
  | O => points
  | S k' =>
      capture_loop k' (i + 1)%Z duration step
        (points ++ [Math_min (duration - Fin (1 # 10))%num (step * of_Z i)%num])
  end.

Definition buildCapturePoints (duration : number) (sceneCount : Z)
  : list number :=
  if negb (truthy duration) || (sceneCount =? 0)%Z then []
  else
    let safeDuration := Math_max (duration - Fin (1 # 2))%num duration in
    let step := (safeDuration / of_Z (sceneCount + 1))%num in
    capture_loop (Z.to_nat sceneCount) 1%Z duration step [].

(** ** Colour and brightness analysis

    The arithmetic of this part is exact: a saturation that the doubles put
    a few units in the last place above 1, a hue that they round to the
    neighbouring degree and a label chosen at a threshold can differ from
    the values computed here. *)

Local Open Scope string_scope.

Definition rgbToHsl (r g b : number) : number * number * number :=
  let rNorm := (r / of_Z 255)%num in
  let gNorm := (g / of_Z 255)%num in
  let bNorm := (b / of_Z 255)%num in
  let max := Math_max (Math_max rNorm gNorm) bNorm in
  let min := Math_min (Math_min rNorm gNorm) bNorm in
  let delta := (max - min)%num in
  let h :=
    if negb (strict_eq delta (of_Z 0)) then
      let h :=
        if strict_eq max rNorm then
          nrem ((gNorm - bNorm) / delta)%num (of_Z 6)
        else if strict_eq max gNorm then
          ((bNorm - rNorm) / delta + of_Z 2)%num
        else
          ((rNorm - gNorm) / delta + of_Z 4)%num in
      let h := Math_round (h * of_Z 60)%num in
      if nlt h (of_Z 0) then (h + of_Z 360)%num else h
    else of_Z 0 in
  let l := ((max + min) / of_Z 2)%num in
  let s :=
    if strict_eq delta (of_Z 0) then of_Z 0
    else (delta / (of_Z 1 - Math_abs (of_Z 2 * l - of_Z 1)))%num in
  (h, s, l).

(** [Array.prototype.find] on the descriptor table: the first entry whose
    [match] flag is set. *)
Fixpoint find_descriptor (table : list (string * bool)) : option string :=
  match table with
  | [] => None
  | (name, matched) :: rest =>
      if matched then Some name else find_descriptor rest
  end.

Definition describeColor (r g b : number) : string :=
  let '(h, s, l) := rgbToHsl r g b in
  let colorDescriptors :=
    [ ("crisp Arctic blue",
        nge h (of_Z 200) && nlt h (of_Z 240) && ngt s (Fin (2 # 10)));
      ("electric violet",
        nge h (of_Z 260) && nlt h (of_Z 300) && ngt s (Fin (35 # 100)));
      ("sunlit amber",
        nge h (of_Z 30) && nlt h (of_Z 60) && ngt l (Fin (55 # 100)));
      ("deep emerald",
        nge h (of_Z 130) && nlt h (of_Z 170) && ngt s (Fin (25 # 100)));
      ("moody indigo",
        nge h (of_Z 210) && nlt h (of_Z 250) && nlt l (Fin (45 # 100)));
      ("faded sepia",
        nge h (of_Z 20) && nlt h (of_Z 50) && nlt s (Fin (25 # 100)));
      ("soft rose", nge h (of_Z 330) || nlt h (of_Z 15));
      ("graphite neutral", nlt s (Fin (12 # 100))) ] in
  match find_descriptor colorDescriptors with
  | Some name => name
  | None => "balanced palette"
  end.

Record ImageData : Type := mkImageData {
  data : list Z
}.

(** [data[i]]: the byte at index [i]; a read past the end gives [undefined],
    which every arithmetic use below turns into NaN. *)
Definition data_at (data : list Z) (i : Z) : number :=
  match nth_error data (Z.to_nat i) with
  | Some v => of_Z v
  | None => NaN
  end.

Record SceneAnalysis : Type := mkSceneAnalysis {
  palette : string;
  lighting : string;
  contrast : option string;
  saturation : option string;
  mood : string;
  energy : string
}.

(** The mutable locals of [analyzeFrame]. *)
Record FrameSums : Type := mkFrameSums {
  rSum : number;
  gSum : number;
  bSum : number;
  brightnessSum : number;
  minBrightness : number;
  maxBrightness : number;
  sampled : Z
}.

Definition initial_sums : FrameSums :=
  mkFrameSums (of_Z 0) (of_Z 0) (of_Z 0) (of_Z 0) (of_Z 255) (of_Z 0) 0.

(** One pass through the body of the sampling loop at byte index [i]. *)
Definition sample_pixel (data : list Z) (i : Z) (acc : FrameSums) : FrameSums :=
  let r := data_at data i in
  let g := data_at data (i + 1) in
  let b := data_at data (i + 2) in
  let brightness :=
    (Fin (299 # 1000) * r + Fin (587 # 1000) * g + Fin (114 # 1000) * b)%num in
  mkFrameSums
    (rSum acc + r)%num
    (gSum acc + g)%num
    (bSum acc + b)%num
    (brightnessSum acc + brightness)%num
    (if nlt brightness (minBrightness acc) then brightness
     else minBrightness acc)
    (if ngt brightness (maxBrightness acc) then brightness
     else maxBrightness acc)
    (sampled acc + 1).

(** The sampling loop [for (i = 0; i < data.length; i += stride)].  The
    counter [fuel] bounds the number of passes; [length data] passes are
    always enough because the stride is at least 4. *)
Fixpoint sample_loop (fuel : nat) (data : list Z) (stride i : Z)
    (acc : FrameSums) : FrameSums :=
  match fuel with
  | O => acc
  | S fuel' =>
      if (i <? Z.of_nat (List.length data))%Z
      then sample_loop fuel' data stride (i + stride)%Z (sample_pixel data i acc)
      else acc
  end.

Definition frame_stride (width height : Z) : Z :=
  let totalPixels := (width * height)%Z in
  Z.max 4 (totalPixels / 55000 * 4)%Z.

Definition frame_sums (data : list Z) (width height : Z) : FrameSums :=
  sample_loop (List.length data) data (frame_stride width height) 0 initial_sums.

Definition analyzeFrame (imageData : ImageData) (width height : Z)
  : SceneAnalysis :=
  let data := data imageData in
  let sums := frame_sums data width height in
  let sampled := sampled sums in
  if (sampled =? 0)%Z then
    mkSceneAnalysis "balanced palette" "neutral lighting" None None
      "steady atmosphere" "controlled pacing"
  else
    let avgR := (rSum sums / of_Z sampled)%num in
    let avgG := (gSum sums / of_Z sampled)%num in
    let avgB := (bSum sums / of_Z sampled)%num in
    let avgBrightness := (brightnessSum sums / of_Z sampled)%num in
    let contrast :=
      ((maxBrightness sums - minBrightness sums) / of_Z 255)%num in
    let '(h, s, l) := rgbToHsl avgR avgG avgB in
    let paletteDescriptor := describeColor avgR avgG avgB in
    let lighting :=
      if ngt avgBrightness (of_Z 200) then "high-key lighting"
      else if ngt avgBrightness (of_Z 150) then "well-lit scene"
      else if ngt avgBrightness (of_Z 100) then "balanced lighting"
      else if ngt avgBrightness (of_Z 60) then "low-key lighting"
      else "shadow-heavy lighting" in
    let contrastDescriptor :=
      if ngt contrast (Fin (55 # 100)) then "high contrast visuals"
      else if ngt contrast (Fin (35 # 100)) then "structured contrast"
      else "soft contrast" in
    let saturationDescriptor :=
      if ngt s (Fin (6 # 10)) then "vivid saturation"
      else if ngt s (Fin (35 # 100)) then "rich tones"
      else if ngt s (Fin (2 # 10)) then "muted palette"
      else "desaturated look" in
    let moodDescriptor :=
      if ngt l (Fin (65 # 100)) then "uplifting mood"
      else if ngt l (Fin (45 # 100)) then "balanced mood"
      else if ngt l (Fin (28 # 100)) then "introspective mood"
      else "brooding atmosphere" in
    let energy :=
      if ngt contrast (Fin (55 # 100)) && ngt s (Fin (35 # 100))
      then "kinetic energy"
      else if ngt contrast (Fin (35 # 100)) then "dynamic pacing"
      else "contemplative pacing" in
    mkSceneAnalysis paletteDescriptor lighting (Some contrastDescriptor)
      (Some saturationDescriptor) moodDescriptor energy.

(** ** Strings *)

(** [Number.prototype.toString] on an integer value: its decimal digits. *)
Definition Z_toString (value : Z) : string :=
  DecimalString.NilEmpty.string_of_int (Z.to_int value).

(** [n] characters taken from [cur] and then cyclically from [padString]. *)
Fixpoint take_cyclic (n : nat) (padString cur : string) : string :=
  match n with
  | O => EmptyString
  | S n' =>
      match cur with
      | String c rest => String c (take_cyclic n' padString rest)
      | EmptyString =>
          match padString with
          | String c rest => String c (take_cyclic n' padString rest)
          | EmptyString => EmptyString
          end
      end
  end.

Definition padStart (s : string) (targetLength : nat) (padString : string)
  : string :=
  if (targetLength <=? String.length s)%nat then s
  else take_cyclic (targetLength - String.length s) padString padString ++ s.

Definition is_lower (c : ascii) : bool :=
  ((97 <=? nat_of_ascii c) && (nat_of_ascii c <=? 122))%nat.

Definition is_upper (c : ascii) : bool :=
  ((65 <=? nat_of_ascii c) && (nat_of_ascii c <=? 90))%nat.

(** Case mapping of one character; characters outside a-z and A-Z are left
    as they are.  [toUpperCase] and [toLowerCase] also map letters outside
    ASCII; the tones, objectives and labels of the page are ASCII. *)
Definition upper_char (c : ascii) : ascii :=
  if is_lower c then ascii_of_nat (nat_of_ascii c - 32) else c.

Definition lower_char (c : ascii) : ascii :=
  if is_upper c then ascii_of_nat (nat_of_ascii c + 32) else c.

Fixpoint toLowerCase (s : string) : string :=
  match s with
  | EmptyString => EmptyString
  | String c rest => String (lower_char c) (toLowerCase rest)
  end.

Definition capitalize (value : string) : string :=
  match value with
  | EmptyString => EmptyString
  | String c rest => String (upper_char c) rest
  end.

(** [Boolean] applied to a string: true unless the string is empty. *)
Definition nonempty (s : string) : bool :=
  match s with
  | EmptyString => false
  | String _ _ => true
  end.

(** [Array.prototype.join]. *)
Definition join (sep : string) (parts : list string) : string :=
  String.concat sep parts.

Definition focusOptions : list (string * string) :=
  [ ("visuals", "Visual Style");
    ("lighting", "Lighting");
    ("narrative", "Narrative Beats");
    ("motion", "Motion & Energy");
    ("mood", "Mood & Atmosphere");
    ("audio", "Audio / Sound") ].

Definition focusLabel (id : string) : string :=
  match find (fun item => String.eqb (fst item) id) focusOptions with
  | Some option => toLowerCase (snd option)
  | None => id
  end.

(** ** Time formatting *)

Definition pad (value : Z) : string := padStart (Z_toString value) 2 "0".

(** After the [Number.isFinite] guard every intermediate value is a finite
    integer, so the three fields are computed in [Z].  The fields are those
    of exact arithmetic: the doubles round [(seconds - floor) * 1000] before
    the floor, which can move the hundredths up by one, and [toString]
    prints an exponent for values from 1e21 on. *)
Definition formatTime (seconds : number) : string :=
  match seconds with
  | Fin s =>
      let minutes := Qfloor (s / 60) in
      let secs := Qfloor (Qrem s 60) in
      let ms := Qfloor ((s - inject_Z (Qfloor s)) * 1000) in
      pad minutes ++ ":" ++ pad secs ++ "." ++ pad (ms / 10)%Z
  | _ => "00:00"
  end.

(** ** Prompt text *)

Record Scene : Type := mkScene {
  index : Z;
  timestamp : number;
  analysis : SceneAnalysis;
  summary : string
}.

(** The optional fields of an analysis that survive [filter(Boolean)]. *)
Definition present (field : option string) : list string :=
  match field with
  | Some s => if nonempty s then [s] else []
  | None => []
  end.

Definition buildScenePrompt (index : Z) (timestamp : number)
    (analysis : SceneAnalysis) (focusAreas : list string)
    (tone objective stylePreset : string) : string :=
  let focus := focusAreas in
  let focusText :=
    match focus with
    | [] => EmptyString
    | _ => " emphasise " ++ join ", " (map focusLabel focus)
    end in
  let descriptors :=
    join "; "
      (present (Some (palette analysis)) ++ present (Some (lighting analysis))
       ++ present (saturation analysis) ++ present (contrast analysis)
       ++ present (Some (mood analysis)) ++ present (Some (energy analysis))) in
  "Scene " ++ Z_toString (index + 1) ++ " (" ++ formatTime timestamp ++ "): "
  ++ capitalize tone ++ " tone with " ++ descriptors ++ "." ++ focusText
  ++ ". Keep alignment with " ++ objective ++ " in a " ++ stylePreset
  ++ " approach.".

Definition newline : string := String (ascii_of_nat 10) EmptyString.

(** The separator of a scene line: a middle dot (U+00B7) between spaces. *)
Definition middle_dot : string :=
  " " ++ String (ascii_of_nat 194) (String (ascii_of_nat 183) " ").

Definition scene_line (scene : Scene) : string :=
  "- " ++ formatTime (timestamp scene) ++ middle_dot
  ++ palette (analysis scene) ++ ", " ++ lighting (analysis scene) ++ ", "
  ++ energy (analysis scene) ++ ".".

(** The array of [buildMasterPrompt] before [filter(Boolean)]. *)
Definition master_parts (scenes : list Scene)
    (projectTitle audienceNotes tone objective stylePreset : string)
    (focusAreas : list string) (customDirectives : string) : list string :=
  let focus := focusAreas in
  let focusLine :=
    match focus with
    | [] => EmptyString
    | _ => "Prioritise " ++ join ", " (map focusLabel focus) ++ "."
    end in
  let sceneLines := join newline (map scene_line scenes) in
  let summaryLines := join newline (map summary scenes) in
  [ if nonempty projectTitle then "Project: " ++ projectTitle
    else "Project: Untitled video prompt";
    "Objective: " ++ capitalize objective ++ " for AI generation.";
    "Creative tone: " ++ capitalize tone ++ " blended with " ++ stylePreset
      ++ ".";
    focusLine;
    if nonempty audienceNotes then "Audience / usage: " ++ audienceNotes
    else EmptyString;
    EmptyString;
    "Scene ingredients:";
    sceneLines;
    EmptyString;
    "Detailed prompt instructions:";
    summaryLines;
    if nonempty customDirectives
    then newline ++ "Extra directives: " ++ customDirectives
    else EmptyString ].

Definition buildMasterPrompt (scenes : list Scene)
    (projectTitle audienceNotes tone objective stylePreset : string)
    (focusAreas : list string) (customDirectives : string) : string :=
  join newline
    (filter nonempty
       (master_parts scenes projectTitle audienceNotes tone objective
          stylePreset focusAreas customDirectives)).

(** ** The seek promise

    [seekVideo] runs on the single-threaded event loop: it registers two
    one-shot listeners on the video element, sets the playback position and
    returns a pending promise.  The platform later delivers events to the
    element one at a time; each delivery runs the listeners registered for
    that event type. *)

(** The two closures created by one call of [seekVideo], and any listener
    that other code attached to the same element. *)
Inductive Callback : Type :=
| handleSeeked
| handleError
| external (id : nat).

Definition callback_eqb (a b : Callback) : bool :=
  match a, b with
  | handleSeeked, handleSeeked | handleError, handleError => true
  | external i, external j => Nat.eqb i j
  | _, _ => false
  end.

Record Listener : Type := mkListener {
  event_type : string;
  callback : Callback;
  once : bool
}.

Inductive PromiseState : Type :=
| Pending
| Fulfilled
| Rejected (message : string).

Record SeekState : Type := mkSeekState {
  currentTime : number;
  listeners : list Listener;
  promise : PromiseState;
  (** how many times [resolve] or [reject] has been called *)
  settle_calls : nat
}.

Definition same_listener (type : string) (cb : Callback) (l : Listener)
  : bool :=
  String.eqb (event_type l) type && callback_eqb (callback l) cb.

(** [addEventListener]: a listener already registered for the same type and
    callback is not added twice. *)
Definition addEventListener (type : string) (cb : Callback) (once : bool)
    (st : SeekState) : SeekState :=
  if existsb (same_listener type cb) (listeners st) then st
  else mkSeekState (currentTime st)
         (listeners st ++ [mkListener type cb once])
         (promise st) (settle_calls st).

Definition removeEventListener (type : string) (cb : Callback)
    (st : SeekState) : SeekState :=
  mkSeekState (currentTime st)
    (filter (fun l => negb (same_listener type cb l)) (listeners st))
    (promise st) (settle_calls st).

(** [resolve] and [reject] of a promise: only the first call has an effect. *)
Definition resolve (st : SeekState) : SeekState :=
  mkSeekState (currentTime st) (listeners st)
    (match promise st with Pending => Fulfilled | settled => settled end)
    (S (settle_calls st)).

Definition reject (message : string) (st : SeekState) : SeekState :=
  mkSeekState (currentTime st) (listeners st)
    (match promise st with Pending => Rejected message | settled => settled end)
    (S (settle_calls st)).

Definition cleanup (st : SeekState) : SeekState :=
  removeEventListener "error" handleError
    (removeEventListener "seeked" handleSeeked st).

Definition run_callback (cb : Callback) (st : SeekState) : SeekState :=
  match cb with
  | handleSeeked => resolve (cleanup st)
  | handleError => reject "seek failed" (cleanup st)
  | external _ => st
  end.

(** Delivery of one event: the listeners registered for [type] when the
    dispatch starts are visited in order; one removed in the meantime is
    skipped, and a one-shot listener is removed before it runs. *)
Definition deliver_to (type : string) (st : SeekState) (l : Listener)
  : SeekState :=
  if existsb (same_listener type (callback l)) (listeners st) then
    run_callback (callback l)
      (if once l then removeEventListener type (callback l) st else st)
  else st.

Definition dispatchEvent (type : string) (st : SeekState) : SeekState :=
  fold_left (deliver_to type)
    (filter (fun l => String.eqb (event_type l) type) (listeners st)) st.

Definition deliver (events : list string) (st : SeekState) : SeekState :=
  fold_left (fun st type => dispatchEvent type st) events st.

(** A video element before the call: some position and only listeners of
    other code. *)
Definition fresh_video (time0 : number) (others : list Listener) : SeekState :=
  mkSeekState time0 others Pending 0.

Definition seekVideo (time : number) (st : SeekState) : SeekState :=
  let st := addEventListener "seeked" handleSeeked true st in
  let st := addEventListener "error" handleError true st in
  mkSeekState time (listeners st) Pending 0.

(** ** Focus areas

    The selected focus areas are a JavaScript [Set] of ids: it holds no
    duplicates and is iterated in insertion order, so it is modelled as the
    list of its elements in that order. *)

Definition Set_has (s : list string) (id : string) : bool :=
  existsb (String.eqb id) s.

Definition Set_delete (s : list string) (id : string) : list string :=
  filter (fun x => negb (String.eqb id x)) s.

Definition Set_add (s : list string) (id : string) : list string :=
  if Set_has s id then s else (s ++ [id])%list.

Definition toggleFocus (id : string) (prev : list string) : list string :=
  let next := prev in
  if Set_has next id then Set_delete next id else Set_add next id.

(** ** Page state and its handlers *)

Record File : Type := mkFile {
  file_type : string
}.

Record VideoSource : Type := mkVideoSource {
  url : string;
  file : File
}.

Record PageState : Type := mkPageState {
  videoSource : option VideoSource;
  videoMeta : option VideoMeta;
  processing : bool;
  status : string;
  scenePrompts : list Scene;
  compiledPrompt : string;
  pulse : Z
}.

(** The configuration fields of the page. *)
Record Config : Type := mkConfig {
  granularity : number;
  tone : string;
  objective : string;
  stylePreset : string;
  focusAreas : list string;
  projectTitle : string;
  audienceNotes : string;
  customDirectives : string
}.

Definition setStatus (message : string) (st : PageState) : PageState :=
  mkPageState (videoSource st) (videoMeta st) (processing st) message
    (scenePrompts st) (compiledPrompt st) (pulse st).

Definition resetState (st : PageState) : PageState :=
  mkPageState (videoSource st) (videoMeta st) (processing st) EmptyString
    [] EmptyString (pulse st + 1).

(** [handleFileChange]: [file] is [event.target.files?.[0]] and [objectUrl]
    the URL that [URL.createObjectURL] returns for it. *)
Definition handleFileChange (file : option File) (objectUrl : string)
    (st : PageState) : PageState :=
  match file with
  | None => st
  | Some f =>
      if negb (String.prefix "video/" (file_type f)) then
        setStatus "Please choose a valid video file." st
      else
        resetState
          (mkPageState (Some (mkVideoSource objectUrl f)) (videoMeta st)
             (processing st) (status st) (scenePrompts st)
             (compiledPrompt st) (pulse st))
  end.

(** The [loadedmetadata] event of the hidden video element. *)
Definition onLoadedMetadata (video_duration : number)
    (videoWidth videoHeight : Z) (st : PageState) : PageState :=
  mkPageState (videoSource st)
    (handleVideoLoaded video_duration videoWidth videoHeight (videoMeta st))
    (processing st) (status st) (scenePrompts st) (compiledPrompt st)
    (pulse st).

Definition is_some {A : Type} (x : option A) : bool :=
  match x with Some _ => true | None => false end.

Definition hasVideoReady (st : PageState) (cfg : Config) : bool :=
  is_some (videoSource st) && is_some (videoMeta st)
  && ngt (sceneCount (videoMeta st) (granularity cfg)) (of_Z 0).

(** ** The generation run *)

(** The number of passes of [for (i = 1; i <= n; i += 1)] for a count [n]
    as [sceneCount] produces it (an integer value, or NaN, which is falsy). *)
Definition count_of (n : number) : Z :=
  match n with
  | Fin q => Qfloor q
  | _ => 0%Z
  end.

(** One pass of the capture loop after the frame has been read. *)
Definition capture_scene (i : Z) (time : number) (frameData : ImageData)
    (canvas_width canvas_height : Z) (cfg : Config) : Scene :=
  let analysis := analyzeFrame frameData canvas_width canvas_height in
  let scenePrompt :=
    buildScenePrompt i time analysis (focusAreas cfg) (tone cfg)
      (objective cfg) (stylePreset cfg) in
  mkScene i time analysis scenePrompt.

(** The capture loop.  [capture time] is the pixel data read back after the
    seek to [time]; it is [None] when the awaited seek is rejected or when
    drawing or reading the frame throws, which ends the loop with the
    exception. *)
Fixpoint capture_scenes (capture : number -> option ImageData)
    (canvas_width canvas_height : Z) (cfg : Config) (i : Z)
    (capturePoints : list number) (nextScenes : list Scene)
  : option (list Scene) :=
  match capturePoints with
  | [] => Some nextScenes
  | time :: rest =>
      match capture time with
      | None => None
      | Some frameData =>
          capture_scenes capture canvas_width canvas_height cfg (i + 1)%Z rest
            (nextScenes
             ++ [capture_scene i time frameData canvas_width canvas_height
                   cfg])%list
      end
  end.

(** [handleGeneratePrompts], from the click to the state after [finally].
    [refs_ready] says that both element refs are set; the canvas takes the
    dimensions the video element reports at that moment. *)
Definition handleGeneratePrompts (refs_ready : bool)
    (capture : number -> option ImageData) (videoWidth videoHeight : Z)
    (cfg : Config) (st : PageState) : PageState :=
  match videoSource st, videoMeta st with
  | Some _, Some meta =>
      if negb refs_ready then
        setStatus "Video is not ready yet. Try again in a moment." st
      else
        let capturePoints :=
          buildCapturePoints (duration meta)
            (count_of (sceneCount (videoMeta st) (granularity cfg))) in
        match capture_scenes capture videoWidth videoHeight cfg 0
                capturePoints [] with
        | Some nextScenes =>
            mkPageState (videoSource st) (videoMeta st) false
              "Prompt ready. Refine or copy as needed." nextScenes
              (buildMasterPrompt nextScenes (projectTitle cfg)
                 (audienceNotes cfg) (tone cfg) (objective cfg)
                 (stylePreset cfg) (focusAreas cfg) (customDirectives cfg))
              (pulse st)
        | None =>
            mkPageState (videoSource st) (videoMeta st) false
              "Unable to analyse the video frames. Try another file or refresh."
              (scenePrompts st) (compiledPrompt st) (pulse st)
        end
  | _, _ => setStatus "Load a video first to extract scene moments." st
  end.

(** * Specification vocabulary

    Predicates and reference functions in which the properties below are
    stated. *)

(** ** Rounding *)

(** A tolerance far above the rounding error of the few double operations
    behind a scene count, a formatted time or a saturation (below 1e-13 for
    the values the page handles), and far below the steps of the
    quantities it is compared with. *)
Definition rounding_margin : Q := 1 # 1000000000.

(** ** Scene count and capture points *)

(** The integer computed by [sceneCount] for a finite duration. *)
Definition scene_count_Z (d : Q) (g : Z) : Z :=
  Z.min 10 (Z.max 3 (Qfloor (d / 20 * inject_Z (g + 1) + (1 # 2)))).

(** The integers [i, i+1, ..., i+k-1]: the values taken by the loop index. *)
Fixpoint Zseq (i : Z) (k : nat) : list Z :=
  match k with
  | O => []
  | S k' => i :: Zseq (i + 1) k'
  end.

(** The point pushed for index [i]. *)
Definition capture_point (duration step : number) (i : Z) : number :=
  Math_min (duration - Fin (1 # 10))%num (step * of_Z i)%num.

(** The capture points obtained when the steps divide [span]. *)
Definition points_over_span (span duration : number) (sceneCount : Z)
  : list number :=
  map (capture_point duration (span / of_Z (sceneCount + 1))%num)
      (Zseq 1 (Z.to_nat sceneCount)).

(** Every element stands in [rel] to its successor. *)
Fixpoint chain (rel : number -> number -> bool) (points : list number) : bool :=
  match points with
  | a :: (b :: _) as rest => rel a b && chain rel rest
  | _ => true
  end.

Definition strictly_increasing (points : list number) : bool :=
  chain nlt points.


Definition within (lo hi : number) (points : list number) : bool :=
  forallb (fun p => nle lo p && nlt p hi) points.



(** The rational value of the point pushed for index [j] when the duration
    [d] and the step [s] are finite. *)
Definition clamp_point (d s : Q) (j : Z) : Q :=
  if Qltb (s * inject_Z j) (d + - (1 # 10)) then s * inject_Z j
  else d + - (1 # 10).


(** ** Frame sampling and analysis *)

(** Number of passes of a loop that starts at [i], advances by [stride] and
    stops at [len]. *)
Definition passes (len stride i : Z) : Z :=
  ((Z.max 0 (len - i) + stride - 1) / stride)%Z.

(** The stride the specification gives: max(4, floor(w*h/55000)) * 4. *)
Definition stride_as_specified (width height : Z) : Z :=
  (Z.max 4 (width * height / 55000) * 4)%Z.

(** The fixed result for a frame without samples. *)
Definition degenerate_analysis : SceneAnalysis :=
  mkSceneAnalysis "balanced palette" "neutral lighting" None None
    "steady atmosphere" "controlled pacing".

(** The buffer consists of whole RGBA pixels with R = G = B = 0. *)
Fixpoint black_pixels (bytes : list Z) : bool :=
  match bytes with
  | [] => true
  | r :: g :: b :: _ :: rest =>
      (r =? 0)%Z && (g =? 0)%Z && (b =? 0)%Z && black_pixels rest
  | _ => false
  end.

(** A finite number whose value is zero. *)
Definition zero_num (x : number) : Prop := exists q, x = Fin q /\ q == 0.

(** The running sums seen while only black pixels have been sampled; before
    the first sample [minBrightness] is still its initial 255. *)
Definition dark_sums (acc : FrameSums) : Prop :=
  zero_num (rSum acc) /\ zero_num (gSum acc) /\ zero_num (bSum acc)
  /\ zero_num (brightnessSum acc) /\ zero_num (maxBrightness acc)
  /\ (exists m, minBrightness acc = Fin m /\ 0 <= m)
  /\ (0 <= sampled acc)%Z.

(** The running sums once at least one black pixel has been sampled. *)
Definition black_sums (acc : FrameSums) : Prop :=
  dark_sums acc /\ zero_num (minBrightness acc) /\ (1 <= sampled acc)%Z.

(** The analysis of an all-black frame. *)
Definition black_analysis : SceneAnalysis :=
  mkSceneAnalysis "soft rose" "shadow-heavy lighting" (Some "soft contrast")
    (Some "desaturated look") "brooding atmosphere" "contemplative pacing".

(** ** Formatted times *)

Definition is_digit (c : ascii) : bool :=
  ((48 <=? nat_of_ascii c) && (nat_of_ascii c <=? 57))%nat.

(** The shape mm:ss.cc: two digits, a colon, two digits, a full stop, two
    digits. *)
Definition shape_mm_ss_cc (s : string) : bool :=
  match s with
  | String m1 (String m2 (String ":" (String s1 (String s2
      (String "." (String c1 (String c2 EmptyString))))))) =>
      is_digit m1 && is_digit m2 && is_digit s1 && is_digit s2
      && is_digit c1 && is_digit c2
  | _ => false
  end.

(** The two decimal digits of a value between 0 and 99. *)
Definition digit_char (v : Z) : ascii := ascii_of_nat (48 + Z.to_nat v).

Definition two_digits (v : Z) : string :=
  String (digit_char (v / 10)) (String (digit_char (v mod 10)) EmptyString).

(** ** Lines of the compiled prompt *)

Definition is_newline (c : ascii) : bool := Ascii.eqb c (ascii_of_nat 10).

(** A string without any newline character. *)
Fixpoint single_line (s : string) : bool :=
  match s with
  | EmptyString => true
  | String c rest => negb (is_newline c) && single_line rest
  end.

(** The lines of a text: the pieces between newline characters. *)
Fixpoint lines (s : string) : list string :=
  match s with
  | EmptyString => [EmptyString]
  | String c rest =>
      if is_newline c then EmptyString :: lines rest
      else match lines rest with
           | l :: ls => String c l :: ls
           | [] => [String c EmptyString]
           end
  end.

(** An optional entry of the array: kept only when non-empty. *)
Definition kept (s : string) : list string :=
  if nonempty s then [s] else [].

(** The text fields of a scene that reach the compiled prompt are free of
    newlines, and the scene has a summary. *)
Definition plain_scene (scene : Scene) : bool :=
  single_line (palette (analysis scene))
  && single_line (lighting (analysis scene))
  && single_line (energy (analysis scene))
  && single_line (summary scene)
  && nonempty (summary scene).

(** The entries of the compiled prompt, in the order of the array. *)
Definition project_line (projectTitle : string) : string :=
  if nonempty projectTitle then "Project: " ++ projectTitle
  else "Project: Untitled video prompt".

Definition objective_line (objective : string) : string :=
  "Objective: " ++ capitalize objective ++ " for AI generation.".

Definition tone_line (tone stylePreset : string) : string :=
  "Creative tone: " ++ capitalize tone ++ " blended with " ++ stylePreset
  ++ ".".

Definition focus_entry (focusAreas : list string) : list string :=
  match focusAreas with
  | [] => []
  | _ => ["Prioritise " ++ join ", " (map focusLabel focusAreas) ++ "."]
  end.

Definition audience_entry (audienceNotes : string) : list string :=
  if nonempty audienceNotes then ["Audience / usage: " ++ audienceNotes]
  else [].

Definition directives_entry (customDirectives : string) : list string :=
  if nonempty customDirectives
  then [newline ++ "Extra directives: " ++ customDirectives]
  else [].

(** The free-text and option fields that end up inside a line are free of
    newlines. *)
Definition plain_config
    (projectTitle audienceNotes tone objective stylePreset : string)
    (focusAreas : list string) : bool :=
  single_line projectTitle && single_line audienceNotes && single_line tone
  && single_line objective && single_line stylePreset
  && forallb single_line focusAreas.

(** The lines of the compiled prompt, top to bottom. *)
Definition prompt_lines (scenes : list Scene)
    (projectTitle audienceNotes tone objective stylePreset : string)
    (focusAreas : list string) (customDirectives : string) : list string :=
  ([ project_line projectTitle; objective_line objective;
     tone_line tone stylePreset ]
   ++ focus_entry focusAreas
   ++ audience_entry audienceNotes
   ++ ["Scene ingredients:"]
   ++ map scene_line scenes
   ++ ["Detailed prompt instructions:"]
   ++ map summary scenes
   ++ (if nonempty customDirectives
       then EmptyString :: lines ("Extra directives: " ++ customDirectives)
       else []))%list.

(** Audience notes of two paragraphs, separated by an empty line. *)
Definition multiline_notes : string :=
  "Pitch deck" ++ newline ++ newline ++ "Internal only".

(** A scene as the generation run builds it, from a black frame captured at
    2.5 s. *)
Definition example_scene : Scene :=
  mkScene 0 (Fin (5 # 2)) black_analysis
    (buildScenePrompt 0 (Fin (5 # 2)) black_analysis ["visuals"; "lighting"]
       "moody noir" "narrative prompt" "hyper-detailed").

(** ** States of the seek promise *)

(** [cb] is registered for events of [type]. *)
Definition registered (type : string) (cb : Callback) (st : SeekState) : bool :=
  existsb (same_listener type cb) (listeners st).

(** No listener uses one of the two closures of [seekVideo]. *)
Definition no_handlers (ls : list Listener) : bool :=
  forallb (fun l => match callback l with
                    | external _ => true
                    | _ => false
                    end) ls.

(** The two closures are registered only for their own event type. *)
Definition own_types (ls : list Listener) : bool :=
  forallb (fun l => match callback l with
                    | handleSeeked => String.eqb (event_type l) "seeked"
                    | handleError => String.eqb (event_type l) "error"
                    | external _ => true
                    end) ls.

(** The promise is pending and both handlers are in place. *)
Definition Waiting (st : SeekState) : Prop :=
  promise st = Pending /\ settle_calls st = 0%nat
  /\ registered "seeked" handleSeeked st = true
  /\ registered "error" handleError st = true
  /\ own_types (listeners st) = true.

(** The promise was settled with [p] by a single call, and neither handler
    is registered any more. *)
Definition Settled (p : PromiseState) (st : SeekState) : Prop :=
  promise st = p /\ settle_calls st = 1%nat
  /\ no_handlers (listeners st) = true.

(** What a signal does to a waiting promise. *)
Definition outcome (type : string) : option PromiseState :=
  if String.eqb type "seeked" then Some Fulfilled
  else if String.eqb type "error" then Some (Rejected "seek failed")
  else None.

(** The first "seeked" or "error" among the delivered events. *)
Fixpoint first_outcome (events : list string) : option PromiseState :=
  match events with
  | [] => None
  | type :: rest =>
      match outcome type with
      | Some p => Some p
      | None => first_outcome rest
      end
  end.

(** A listener of the snapshot whose delivery settles a waiting promise. *)
Definition fires (type : string) (l : Listener) : bool :=
  match callback l with
  | handleSeeked => String.eqb type "seeked"
  | handleError => String.eqb type "error"
  | external _ => false
  end.

(** ** Page states *)

(** Stored metadata, if any, has a truthy duration. *)
Definition meta_ok (st : PageState) : bool :=
  match videoMeta st with
  | Some meta => truthy (duration meta)
  | None => true
  end.

(** What can happen to the page: a file is chosen, the hidden video element
    reports its metadata, "Generate Prompt" or "Reset Results" is clicked. *)
Inductive PageEvent : Type :=
| FileChosen (file : option File) (objectUrl : string)
| MetadataLoaded (video_duration : number) (videoWidth videoHeight : Z)
| GenerateClicked (refs_ready : bool) (capture : number -> option ImageData)
    (videoWidth videoHeight : Z) (cfg : Config)
| ResetClicked.

Definition page_step (st : PageState) (ev : PageEvent) : PageState :=
  match ev with
  | FileChosen file objectUrl => handleFileChange file objectUrl st
  | MetadataLoaded d w h => onLoadedMetadata d w h st
  | GenerateClicked ready capture w h cfg =>
      handleGeneratePrompts ready capture w h cfg st
  | ResetClicked => resetState st
  end.

(** The state of the page when it is first rendered. *)
Definition initial_page : PageState :=
  mkPageState None None false EmptyString [] EmptyString 0.

(** ** Seeks in sequence *)

(** None of the listeners is a one-shot listener. *)
Definition persistent (ls : list Listener) : bool :=
  forallb (fun l => negb (once l)) ls.

(** One seek of the generation run: the call, then the events the platform
    delivers until the run goes on. *)
Definition seek_round (st : SeekState) (round : number * list string)
  : SeekState :=
  deliver (snd round) (seekVideo (fst round) st).

(** The states after each of a sequence of seeks. *)
Fixpoint seek_rounds (st : SeekState) (rounds : list (number * list string))
  : list SeekState :=
  match rounds with
  | [] => []
  | round :: rest => seek_round st round :: seek_rounds (seek_round st round) rest
  end.

(** ** The generation run *)

(** The option fields of the configuration and the focus ids are free of
    newlines. *)
Definition plain_options (cfg : Config) : bool :=
  single_line (tone cfg) && single_line (objective cfg)
  && single_line (stylePreset cfg) && forallb single_line (focusAreas cfg).

(** What the capture loop records for one scene. *)
Definition scene_recorded (capture : number -> option ImageData)
    (canvas_width canvas_height : Z) (cfg : Config) (scene : Scene) : Prop :=
  exists frameData,
    capture (timestamp scene) = Some frameData
    /\ analysis scene = analyzeFrame frameData canvas_width canvas_height
    /\ summary scene
       = buildScenePrompt (index scene) (timestamp scene) (analysis scene)
           (focusAreas cfg) (tone cfg) (objective cfg) (stylePreset cfg).

Definition ready_status : string := "Prompt ready. Refine or copy as needed.".

(** ** Frames compared pixel by pixel *)

(** Two buffers of whole RGBA pixels with the same red, green and blue
    bytes; the alpha bytes may differ. *)
Fixpoint same_rgb (a b : list Z) : bool :=
  match a, b with
  | [], [] => true
  | r1 :: g1 :: b1 :: _ :: rest1, r2 :: g2 :: b2 :: _ :: rest2 =>
      (r1 =? r2)%Z && (g1 =? g2)%Z && (b1 =? b2)%Z && same_rgb rest1 rest2
  | _, _ => false
  end.

(** * Properties *)

(** ** Numbers *)

Lemma Qltb_lt (a b : Q) : Qltb a b = true <-> a < b.
Proof.
  unfold Qltb. rewrite negb_true_iff, <- not_true_iff_false, Qle_bool_iff.
  split; [apply Qnot_le_lt | intros H H'; exact (Qlt_not_le _ _ H H')].
Qed.

Lemma Qltb_ge (a b : Q) : Qltb a b = false <-> b <= a.
Proof.
  unfold Qltb. rewrite negb_false_iff. apply Qle_bool_iff.
Qed.

Lemma Qeq_bool_false (a b : Q) : ~ a == b -> Qeq_bool a b = false.
Proof.
  intros H. apply not_true_iff_false. rewrite Qeq_bool_iff. exact H.
Qed.

Lemma Qltb_inject_Z (a b : Z) : Qltb (inject_Z a) (inject_Z b) = (a <? b)%Z.
Proof.
  destruct (Z.ltb_spec a b) as [H | H].
  - apply Qltb_lt. rewrite <- Zlt_Qlt. exact H.
  - apply Qltb_ge. rewrite <- Zle_Qle. exact H.
Qed.

Lemma Math_max_of_Z (a b : Z) : Math_max (of_Z a) (of_Z b) = of_Z (Z.max a b).
Proof.
  unfold Math_max, of_Z, nlt. rewrite Qltb_inject_Z.
  destruct (Z.ltb_spec a b); f_equal; f_equal; lia.
Qed.

Lemma Math_min_of_Z (a b : Z) : Math_min (of_Z a) (of_Z b) = of_Z (Z.min a b).
Proof.
  unfold Math_min, of_Z, nlt. rewrite Qltb_inject_Z.
  destruct (Z.ltb_spec b a); f_equal; f_equal; lia.
Qed.

Lemma nle_of_Z (a b : Z) : nle (of_Z a) (of_Z b) = true <-> (a <= b)%Z.
Proof.
  unfold nle, of_Z. rewrite Qle_bool_iff, <- Zle_Qle. reflexivity.
Qed.

(** ** Scene count *)

Lemma sceneCount_finite (d : Q) (g w h : Z) :
  sceneCount (Some (mkVideoMeta (Fin d) w h)) (of_Z g)
  = of_Z (scene_count_Z d g).
Proof.
  unfold sceneCount, scene_count_Z, maxSceneSamples. cbn [duration].
  cbn [ndiv nadd nmul Math_round of_Z].
  change (Qeq_bool (inject_Z 20) 0) with false.
  cbn [nmul Math_round]. rewrite Math_max_of_Z, Math_min_of_Z.
  do 3 f_equal. apply Qfloor_comp.
  rewrite inject_Z_plus. reflexivity.
Qed.

Lemma scene_count_Z_range (d : Q) (g : Z) : (3 <= scene_count_Z d g <= 10)%Z.
Proof. unfold scene_count_Z. lia. Qed.

Lemma scene_count_Z_mono (d1 d2 : Q) (g1 g2 : Z) :
  0 <= d1 -> d1 <= d2 -> (0 <= g1 + 1)%Z -> (g1 <= g2)%Z ->
  (scene_count_Z d1 g1 <= scene_count_Z d2 g2)%Z.
Proof.
  intros Hd1 Hd Hg1 Hg. unfold scene_count_Z.
  apply Z.min_le_compat_l, Z.max_le_compat_l, Qfloor_resp_le.
  apply Qplus_le_l.
  assert (H1 : 0 <= inject_Z (g1 + 1)) by (rewrite <- (Zle_Qle 0); lia).
  assert (H2 : inject_Z (g1 + 1) <= inject_Z (g2 + 1))
    by (rewrite <- Zle_Qle; lia).
  assert (H3 : d1 / 20 <= d2 / 20) by (apply Qmult_le_compat_r; [lra | discriminate]).
  assert (H4 : 0 <= d1 / 20) by (apply Qmult_le_0_compat; [lra | discriminate]).
  apply Qle_trans with (d1 / 20 * inject_Z (g2 + 1)).
  - rewrite !(Qmult_comm (d1 / 20)). apply Qmult_le_compat_r; assumption.
  - apply Qmult_le_compat_r; [assumption | lra].
Qed.



Lemma Qfloor_unique (y : Q) (a : Z) :
  inject_Z a <= y -> y < inject_Z (a + 1) -> Qfloor y = a.
Proof.
  intros Hlo Hhi.
  assert (H1 : (a <= Qfloor y)%Z)
    by (rewrite <- (Qfloor_Z a); apply Qfloor_resp_le, Hlo).
  assert (H2 : (Qfloor y < a + 1)%Z).
  { rewrite Zlt_Qlt. apply Qle_lt_trans with y; [apply Qfloor_le | exact Hhi]. }
  lia.
Qed.





(** C9. The scene count does not decrease when the duration grows or when
    the granularity grows: for 0 < d1 <= d2 and 1 <= g1 <= g2 <= 7,
    sceneCount(d1, g1) <= sceneCount(d2, g1) and
    sceneCount(d1, g1) <= sceneCount(d1, g2). *)
Theorem sceneCount_monotone (d1 d2 : Q) (g1 g2 w h : Z) :
  0 < d1 -> d1 <= d2 -> (1 <= g1)%Z -> (g1 <= g2)%Z -> (g2 <= 7)%Z ->
  nle (sceneCount (Some (mkVideoMeta (Fin d1) w h)) (of_Z g1))
      (sceneCount (Some (mkVideoMeta (Fin d2) w h)) (of_Z g1)) = true
  /\ nle (sceneCount (Some (mkVideoMeta (Fin d1) w h)) (of_Z g1))
         (sceneCount (Some (mkVideoMeta (Fin d1) w h)) (of_Z g2)) = true.
Proof.
  intros Hd1 Hd Hg1 Hg Hg2. rewrite !sceneCount_finite, !nle_of_Z.
  split; apply scene_count_Z_mono; try lia; try lra; apply Qle_refl.
Qed.

Lemma sceneCount_monotone_witness :
  nle (sceneCount (Some (mkVideoMeta (Fin 30) 640 480)) (of_Z 2))
      (sceneCount (Some (mkVideoMeta (Fin 45) 640 480)) (of_Z 2)) = true
  /\ nle (sceneCount (Some (mkVideoMeta (Fin 30) 640 480)) (of_Z 2))
         (sceneCount (Some (mkVideoMeta (Fin 30) 640 480)) (of_Z 5)) = true.
Proof.
  apply (sceneCount_monotone 30 45 2 5 640 480);
    [reflexivity | unfold Qle; simpl; lia | lia | lia | lia].
Defined.

(** ** Capture points *)

Lemma Zseq_length (i : Z) (k : nat) : List.length (Zseq i k) = k.
Proof. revert i. induction k; intros; cbn; [| rewrite IHk]; reflexivity. Qed.

Lemma Zseq_In (i : Z) (k : nat) (j : Z) :
  In j (Zseq i k) <-> (i <= j < i + Z.of_nat k)%Z.
Proof.
  revert i. induction k as [| k IH]; intros i; cbn [Zseq In].
  - lia.
  - rewrite IH. lia.
Qed.

Lemma capture_loop_map (k : nat) (i : Z) (duration step : number)
    (points : list number) :
  capture_loop k i duration step points
  = (points ++ map (capture_point duration step) (Zseq i k))%list.
Proof.
  revert i points. induction k as [| k IH]; intros i points; cbn.
  - now rewrite app_nil_r.
  - rewrite IH, <- app_assoc. reflexivity.
Qed.

Lemma safeDuration_is_duration (d : Q) :
  Math_max (Fin d - Fin (1 # 2))%num (Fin d) = Fin d.
Proof.
  cbn. replace (Qltb (d + - (1 # 2)) d) with true; [reflexivity |].
  symmetry. apply Qltb_lt. lra.
Qed.

Lemma buildCapturePoints_finite (d : Q) (n : Z) :
  ~ d == 0 ->
  buildCapturePoints (Fin d) n = points_over_span (Fin d) (Fin d) n.
Proof.
  intros Hd. unfold buildCapturePoints, points_over_span. cbn [truthy].
  rewrite (Qeq_bool_false _ _ Hd). cbn [negb orb].
  destruct (Z.eqb_spec n 0) as [-> | Hn]; [reflexivity |].
  rewrite safeDuration_is_duration, capture_loop_map. reflexivity.
Qed.

(** C6. For every duration d > 0 the effective span max(d - 0.5, d) is d
    itself, so the capture points are those obtained by dividing the whole
    duration into sceneCount + 1 steps: the half-second margin changes no
    capture point. *)
Theorem safety_margin_is_noop (d : Q) (n : Z) :
  0 < d ->
  Math_max (Fin d - Fin (1 # 2))%num (Fin d) = Fin d
  /\ buildCapturePoints (Fin d) n = points_over_span (Fin d) (Fin d) n.
Proof.
  intros Hd. split; [apply safeDuration_is_duration |].
  apply buildCapturePoints_finite. intros E. rewrite E in Hd. discriminate Hd.
Qed.

Lemma safety_margin_is_noop_witness :
  Math_max (Fin 40 - Fin (1 # 2))%num (Fin 40) = Fin 40
  /\ buildCapturePoints (Fin 40) 10 = points_over_span (Fin 40) (Fin 40) 10.
Proof. apply (safety_margin_is_noop 40 10). reflexivity. Defined.

Lemma chain_map_Zseq (rel : number -> number -> bool) (g : Z -> number)
    (i : Z) (k : nat) :
  chain rel (map g (Zseq i k)) = true
  <-> (forall j, (i <= j)%Z -> (j + 1 < i + Z.of_nat k)%Z ->
         rel (g j) (g (j + 1)%Z) = true).
Proof.
  revert i. induction k as [| k IH]; intros i.
  - cbn. split; [intros _ j; lia | reflexivity].
  - destruct k as [| k].
    + cbn. split; [intros _ j; lia | reflexivity].
    + change (chain rel (map g (Zseq i (S (S k)))))
        with (rel (g i) (g (i + 1)%Z) && chain rel (map g (Zseq (i + 1) (S k)))).
      rewrite andb_true_iff, IH. split.
      * intros [H0 H] j Hj1 Hj2.
        destruct (Z.eq_dec j i) as [-> | Hne]; [exact H0 |].
        apply H; lia.
      * intros H. split; [apply H; lia |].
        intros j Hj1 Hj2. apply H; lia.
Qed.

Lemma forallb_map_Zseq (P : number -> bool) (g : Z -> number) (i : Z) (k : nat) :
  forallb P (map g (Zseq i k)) = true
  <-> (forall j, (i <= j < i + Z.of_nat k)%Z -> P (g j) = true).
Proof.
  rewrite forallb_forall. split.
  - intros H j Hj. apply H, in_map, Zseq_In, Hj.
  - intros H x Hx. apply in_map_iff in Hx. destruct Hx as [j [<- Hj]].
    apply H, Zseq_In, Hj.
Qed.

Lemma capture_point_finite (d s : Q) (j : Z) :
  capture_point (Fin d) (Fin s) j = Fin (clamp_point d s j).
Proof.
  unfold capture_point, clamp_point. cbn.
  destruct (Qltb (s * inject_Z j) (d + - (1 # 10))); reflexivity.
Qed.

Lemma clamp_point_cases (d s : Q) (j : Z) :
  (s * inject_Z j < d - (1 # 10) /\ clamp_point d s j = s * inject_Z j)
  \/ (d - (1 # 10) <= s * inject_Z j /\ clamp_point d s j = d + - (1 # 10)).
Proof.
  unfold clamp_point.
  destruct (Qltb (s * inject_Z j) (d + - (1 # 10))) eqn:E.
  - left. apply Qltb_lt in E. split; [lra | reflexivity].
  - right. apply Qltb_ge in E. split; [lra | reflexivity].
Qed.


Lemma step_succ (s : Q) (j : Z) :
  s * inject_Z (j + 1) == s * inject_Z j + s.
Proof. rewrite inject_Z_plus. change (inject_Z 1) with 1. ring. Qed.

Lemma step_positive (d : Q) (n : Z) :
  0 < d -> (1 <= n)%Z ->
  0 < d / inject_Z (n + 1)
  /\ d / inject_Z (n + 1) * inject_Z (n + 1) == d
  /\ ~ inject_Z (n + 1) == 0.
Proof.
  intros Hd Hn.
  assert (HN : 0 < inject_Z (n + 1)) by (rewrite <- (Zlt_Qlt 0); lia).
  assert (HN0 : ~ inject_Z (n + 1) == 0) by lra.
  repeat split; try assumption.
  - apply Qlt_shift_div_l; [assumption | lra].
  - field. assumption.
Qed.

Lemma step_scale (s : Q) (j k : Z) :
  0 <= s -> (j <= k)%Z -> s * inject_Z j <= s * inject_Z k.
Proof.
  intros Hs Hjk. rewrite !(Qmult_comm s).
  apply Qmult_le_compat_r; [rewrite <- Zle_Qle |]; assumption.
Qed.

Lemma points_over_span_finite (d : Q) (n : Z) :
  (1 <= n)%Z ->
  points_over_span (Fin d) (Fin d) n
  = map (fun j => Fin (clamp_point d (d / inject_Z (n + 1)) j))
        (Zseq 1 (Z.to_nat n)).
Proof.
  intros Hn. unfold points_over_span. cbn [ndiv of_Z].
  rewrite Qeq_bool_false.
  - apply map_ext. intros j. apply capture_point_finite.
  - intros E. apply (inject_Z_injective (n + 1) 0) in E. lia.
Qed.

Section ClampedPoints.

Variables (d : Q) (n : Z).
Hypothesis Hd : 0 < d.
Hypothesis Hn : (1 <= n)%Z.

Let s : Q := d / inject_Z (n + 1).

Local Lemma s_pos : 0 < s.
Proof. apply step_positive; assumption. Qed.

Local Lemma s_total (j : Z) :
  s * inject_Z j == d - s * inject_Z (n + 1 - j).
Proof.
  destruct (step_positive d n Hd Hn) as [_ [H _]]. fold s in H.
  replace (n + 1 - j)%Z with (n + 1 + - j)%Z by lia.
  rewrite inject_Z_plus, inject_Z_opp.
  setoid_replace (s * (inject_Z (n + 1) + - inject_Z j))
    with (s * inject_Z (n + 1) - s * inject_Z j) by ring.
  rewrite H. ring.
Qed.

Lemma clamp_point_below (j : Z) : clamp_point d s j < d.
Proof. destruct (clamp_point_cases d s j) as [[H ->] | [H ->]]; lra. Qed.


Lemma clamp_point_strict (j : Z) :
  (j + 1 <= n)%Z -> inject_Z (n + 1) < 20 * d ->
  clamp_point d s j < clamp_point d s (j + 1).
Proof.
  intros Hj Hbig.
  pose proof s_pos as Hs. pose proof (step_succ s j) as Hsucc.
  pose proof (s_total j) as Htot.
  assert (H2 : s * inject_Z 2 <= s * inject_Z (n + 1 - j))
    by (apply step_scale; [lra | lia]).
  assert (Hs20 : (1 # 20) < s).
  { unfold s. apply Qlt_shift_div_l; [rewrite <- (Zlt_Qlt 0); lia | lra]. }
  change (inject_Z 2) with 2 in H2.
  destruct (clamp_point_cases d s j) as [[H ->] | [H ->]];
    destruct (clamp_point_cases d s (j + 1)) as [[H' ->] | [H' ->]]; lra.
Qed.


Lemma clamp_point_nonneg (j : Z) :
  (1 <= j)%Z -> 1 # 10 <= d -> 0 <= clamp_point d s j.
Proof.
  intros Hj Hd10. pose proof s_pos as Hs.
  assert (H1 : s * inject_Z 0 <= s * inject_Z j)
    by (apply step_scale; [lra | lia]).
  change (inject_Z 0) with 0 in H1.
  destruct (clamp_point_cases d s j) as [[H ->] | [H ->]]; lra.
Qed.


End ClampedPoints.




(** ** Frame sampling *)

Lemma frame_stride_min (width height : Z) : (4 <= frame_stride width height)%Z.
Proof. unfold frame_stride. lia. Qed.

Lemma passes_done (len stride i : Z) :
  (1 <= stride)%Z -> (len <= i)%Z -> passes len stride i = 0%Z.
Proof.
  intros Hs Hi. unfold passes. apply Z.div_small. lia.
Qed.

Lemma passes_step (len stride i : Z) :
  (1 <= stride)%Z -> (i < len)%Z ->
  passes len stride i = (1 + passes len stride (i + stride))%Z.
Proof.
  intros Hs Hi. unfold passes.
  destruct (Z.le_gt_cases (len - (i + stride)) 0) as [Hle | Hgt].
  - replace (Z.max 0 (len - (i + stride))) with 0%Z by lia.
    replace (Z.max 0 (len - i)) with (len - i)%Z by lia.
    rewrite (Z.div_small (0 + stride - 1) stride) by lia.
    symmetry. apply Z.div_unique with (len - i - 1)%Z; lia.
  - replace (Z.max 0 (len - (i + stride))) with (len - (i + stride))%Z by lia.
    replace (Z.max 0 (len - i)) with (len - i)%Z by lia.
    replace (len - i + stride - 1)%Z
      with (len - (i + stride) + stride - 1 + 1 * stride)%Z by lia.
    rewrite Z.div_add by lia. lia.
Qed.

Lemma sample_pixel_sampled (data : list Z) (i : Z) (acc : FrameSums) :
  sampled (sample_pixel data i acc) = (sampled acc + 1)%Z.
Proof. reflexivity. Qed.

Lemma sample_loop_sampled (fuel : nat) (data : list Z) (stride i : Z)
    (acc : FrameSums) :
  (1 <= stride)%Z ->
  (Z.of_nat (List.length data) - i <= Z.of_nat fuel)%Z ->
  sampled (sample_loop fuel data stride i acc)
  = (sampled acc + passes (Z.of_nat (List.length data)) stride i)%Z.
Proof.
  intros Hs. revert i acc.
  induction fuel as [| fuel IH]; intros i acc Hfuel; cbn [sample_loop].
  - rewrite passes_done by lia. lia.
  - destruct (Z.ltb_spec i (Z.of_nat (List.length data))) as [Hlt | Hge].
    + rewrite IH by lia. rewrite sample_pixel_sampled.
      rewrite (passes_step _ _ i) by lia. lia.
    + rewrite passes_done by lia. lia.
Qed.

(** The loop result does not depend on the fuel once the fuel covers the
    bytes that remain. *)
Lemma sample_loop_fuel (fuel fuel' : nat) (data : list Z) (stride i : Z)
    (acc : FrameSums) :
  (1 <= stride)%Z ->
  (Z.of_nat (List.length data) - i <= Z.of_nat fuel)%Z ->
  (Z.of_nat (List.length data) - i <= Z.of_nat fuel')%Z ->
  sample_loop fuel data stride i acc = sample_loop fuel' data stride i acc.
Proof.
  intros Hs. revert fuel' i acc.
  induction fuel as [| fuel IH]; intros fuel' i acc H H'.
  - destruct fuel' as [| fuel']; [reflexivity |]. cbn [sample_loop].
    destruct (Z.ltb_spec i (Z.of_nat (List.length data))); [lia | reflexivity].
  - destruct fuel' as [| fuel']; cbn [sample_loop];
      destruct (Z.ltb_spec i (Z.of_nat (List.length data))); try reflexivity;
      try lia.
    apply IH; lia.
Qed.

Lemma frame_sums_sampled (data : list Z) (width height : Z) :
  sampled (frame_sums data width height)
  = passes (Z.of_nat (List.length data)) (frame_stride width height) 0.
Proof.
  unfold frame_sums. pose proof (frame_stride_min width height).
  rewrite sample_loop_sampled by lia. reflexivity.
Qed.

Lemma frame_sums_nonempty (data : list Z) (width height : Z) :
  data <> [] -> (1 <= sampled (frame_sums data width height))%Z.
Proof.
  intros Hne. rewrite frame_sums_sampled.
  pose proof (frame_stride_min width height).
  assert (0 < Z.of_nat (List.length data))%Z
    by (destruct data; [congruence | cbn [List.length]; lia]).
  rewrite passes_step by lia.
  unfold passes. pose proof (Z.div_pos
    (Z.max 0 (Z.of_nat (List.length data) - (0 + frame_stride width height))
     + frame_stride width height - 1) (frame_stride width height)).
  lia.
Qed.

(** C4, as stated, fails.  On a 10 x 10 frame the loop advances by 4 bytes,
    not by the 16 bytes of the stated formula, and all 100 pixels are
    sampled. *)
Lemma stride_differs_on_small_frame :
  frame_stride 10 10 = 4%Z
  /\ stride_as_specified 10 10 = 16%Z
  /\ Z.of_nat (List.length (repeat 0%Z 400)) = (4 * (10 * 10))%Z
  /\ sampled (frame_sums (repeat 0%Z 400) 10 10) = 100%Z.
Proof. repeat split; vm_compute; reflexivity. Qed.

(** C4, amended.  For a buffer of 4*w*h bytes the sampling loop advances by
    max(4, floor(w*h/55000)*4) bytes.  This is the stated
    max(4, floor(w*h/55000))*4 when w*h >= 220000 and is smaller otherwise.
    The loop samples ceil(4*w*h/stride) pixels: every pixel when
    w*h < 110000, and at least 55000 but fewer than 110000 pixels when
    w*h >= 55000. *)
Theorem sampling_stride_and_count (data : list Z) (width height : Z) :
  (0 <= width)%Z -> (0 <= height)%Z ->
  Z.of_nat (List.length data) = (4 * (width * height))%Z ->
  let total := (width * height)%Z in
  let stride := frame_stride width height in
  let count := sampled (frame_sums data width height) in
  stride = Z.max 4 (total / 55000 * 4)%Z
  /\ (220000 <= total -> stride = stride_as_specified width height)%Z
  /\ (total < 220000 -> stride < stride_as_specified width height)%Z
  /\ count = ((4 * total + stride - 1) / stride)%Z
  /\ (total < 110000 -> count = total)%Z
  /\ (55000 <= total -> 55000 <= count < 110000)%Z.
Proof.
  intros Hw Hh Hlen total stride count.
  assert (Htotal : (0 <= total)%Z) by (subst total; nia).
  assert (Hcount : count = ((4 * total + stride - 1) / stride)%Z).
  { subst count stride. rewrite frame_sums_sampled, Hlen. unfold passes.
    fold total. f_equal. lia. }
  assert (Hstride : stride = Z.max 4 (total / 55000 * 4)%Z) by reflexivity.
  assert (Hspec : stride_as_specified width height
                  = (Z.max 4 (total / 55000) * 4)%Z) by reflexivity.
  pose proof (Z.div_mod total 55000 ltac:(lia)) as Hdm.
  pose proof (Z.mod_pos_bound total 55000 ltac:(lia)) as Hmod.
  split; [exact Hstride |].
  split; [intros Hbig; rewrite Hspec, Hstride; lia |].
  split; [intros Hsmall; rewrite Hspec, Hstride; lia |].
  split; [exact Hcount |].
  split.
  - intros Hsmall. rewrite Hcount.
    assert (Hs4 : stride = 4%Z) by (rewrite Hstride; lia).
    rewrite Hs4. symmetry. apply Z.div_unique with 3%Z; lia.
  - intros Hbig. rewrite Hcount.
    assert (Hk : (1 <= total / 55000)%Z) by lia.
    assert (Hs4 : stride = (total / 55000 * 4)%Z) by (rewrite Hstride; lia).
    rewrite Hs4. split.
    + apply Z.div_le_lower_bound; lia.
    + apply Z.div_lt_upper_bound; lia.
Qed.

Lemma sampling_stride_and_count_witness :
  let data := repeat 0%Z 400 in
  let total := (10 * 10)%Z in
  let stride := frame_stride 10 10 in
  let count := sampled (frame_sums data 10 10) in
  stride = Z.max 4 (total / 55000 * 4)%Z
  /\ (220000 <= total -> stride = stride_as_specified 10 10)%Z
  /\ (total < 220000 -> stride < stride_as_specified 10 10)%Z
  /\ count = ((4 * total + stride - 1) / stride)%Z
  /\ (total < 110000 -> count = total)%Z
  /\ (55000 <= total -> 55000 <= count < 110000)%Z.
Proof.
  apply (sampling_stride_and_count (repeat 0%Z 400) 10 10);
    [lia | lia | reflexivity].
Defined.

(** ** Frame analysis *)

Lemma analyzeFrame_sampled (bytes : list Z) (width height : Z) :
  (1 <= sampled (frame_sums bytes width height))%Z ->
  exists c s,
    contrast (analyzeFrame (mkImageData bytes) width height) = Some c
    /\ saturation (analyzeFrame (mkImageData bytes) width height) = Some s.
Proof.
  intros Hs. unfold analyzeFrame. cbn [data].
  destruct (Z.eqb_spec (sampled (frame_sums bytes width height)) 0) as [E | _];
    [lia |].
  destruct (rgbToHsl _ _ _) as [[h s] l]. cbn [contrast saturation].
  eexists. eexists. split; reflexivity.
Qed.

(** C5. On an empty buffer [analyzeFrame] returns exactly the fixed neutral
    analysis, which carries no saturation and no contrast field; on every
    non-empty buffer at least one pixel is sampled and the result carries
    both fields. *)
Theorem analyzeFrame_degenerate_and_fields (data : list Z) (width height : Z) :
  analyzeFrame (mkImageData []) width height = degenerate_analysis
  /\ contrast degenerate_analysis = None
  /\ saturation degenerate_analysis = None
  /\ (data <> [] ->
      (1 <= sampled (frame_sums data width height))%Z
      /\ exists c s,
           contrast (analyzeFrame (mkImageData data) width height) = Some c
           /\ saturation (analyzeFrame (mkImageData data) width height)
              = Some s).
Proof.
  repeat split; try reflexivity.
  - apply frame_sums_nonempty. assumption.
  - apply analyzeFrame_sampled, frame_sums_nonempty. assumption.
Qed.

Lemma analyzeFrame_degenerate_and_fields_witness :
  (1 <= sampled (frame_sums [12; 200; 31; 255]%Z 1 1))%Z
  /\ exists c s,
       contrast (analyzeFrame (mkImageData [12; 200; 31; 255]%Z) 1 1) = Some c
       /\ saturation (analyzeFrame (mkImageData [12; 200; 31; 255]%Z) 1 1)
          = Some s.
Proof.
  apply (analyzeFrame_degenerate_and_fields [12; 200; 31; 255]%Z 1 1).
  discriminate.
Defined.

(** *** All-black frames *)

Lemma black_pixels_nth (bytes : list Z) (k : nat) :
  black_pixels bytes = true -> (4 * k < List.length bytes)%nat ->
  nth_error bytes (4 * k) = Some 0%Z
  /\ nth_error bytes (4 * k + 1) = Some 0%Z
  /\ nth_error bytes (4 * k + 2) = Some 0%Z.
Proof.
  revert bytes. induction k as [| k IH]; intros bytes Hb Hlen.
  - destruct bytes as [| r [| g [| b [| a rest]]]]; cbn in Hb, Hlen;
      try discriminate; try lia.
    rewrite !andb_true_iff, !Z.eqb_eq in Hb.
    destruct Hb as [[[-> ->] ->] _]. repeat split.
  - destruct bytes as [| r [| g [| b [| a rest]]]]; cbn in Hb, Hlen;
      try discriminate; try lia.
    rewrite !andb_true_iff in Hb. destruct Hb as [_ Hrest].
    replace (4 * S k)%nat with (S (S (S (S (4 * k))))) by lia.
    cbn [nth_error Nat.add]. apply IH; [assumption | cbn in Hlen; lia].
Qed.

Lemma black_pixels_at (bytes : list Z) (i : Z) :
  black_pixels bytes = true ->
  (0 <= i < Z.of_nat (List.length bytes))%Z -> (i mod 4 = 0)%Z ->
  data_at bytes i = of_Z 0
  /\ data_at bytes (i + 1) = of_Z 0
  /\ data_at bytes (i + 2) = of_Z 0.
Proof.
  intros Hb Hi Hmod.
  assert (Hk : exists k : nat, i = (4 * Z.of_nat k)%Z).
  { exists (Z.to_nat (i / 4)). rewrite Z2Nat.id by (apply Z.div_pos; lia).
    pose proof (Z.div_mod i 4 ltac:(lia)). lia. }
  destruct Hk as [k ->].
  destruct (black_pixels_nth bytes k Hb ltac:(lia)) as [H0 [H1 H2]].
  unfold data_at.
  replace (Z.to_nat (4 * Z.of_nat k)) with (4 * k)%nat by lia.
  replace (Z.to_nat (4 * Z.of_nat k + 1)) with (4 * k + 1)%nat by lia.
  replace (Z.to_nat (4 * Z.of_nat k + 2)) with (4 * k + 2)%nat by lia.
  rewrite H0, H1, H2. repeat split.
Qed.

Lemma zero_num_add_zero (x : number) :
  zero_num x -> zero_num (x + of_Z 0)%num.
Proof.
  intros [q [-> Hq]]. exists (q + inject_Z 0). split; [reflexivity |].
  rewrite Hq. reflexivity.
Qed.

Lemma sample_black_pixel (bytes : list Z) (i : Z) (acc : FrameSums) :
  black_pixels bytes = true ->
  (0 <= i < Z.of_nat (List.length bytes))%Z -> (i mod 4 = 0)%Z ->
  dark_sums acc -> black_sums (sample_pixel bytes i acc).
Proof.
  intros Hb Hi Hmod [Hr [Hg [Hbl [Hbr [Hmx [[m [Hm Hm0]] Hs]]]]]].
  destruct (black_pixels_at bytes i Hb Hi Hmod) as [E0 [E1 E2]].
  unfold sample_pixel. rewrite E0, E1, E2.
  set (brightness :=
    (Fin (299 # 1000) * of_Z 0 + Fin (587 # 1000) * of_Z 0
     + Fin (114 # 1000) * of_Z 0)%num).
  assert (Hbright : zero_num brightness) by (eexists; split; reflexivity).
  destruct Hbright as [q0 [Eq0 Hq0]]. rewrite Eq0 in *. clearbody brightness.
  destruct Hmx as [mx [Emx Hmx0]]. rewrite Emx, Hm.
  cbn [ngt nlt].
  replace (Qltb mx q0) with false by (symmetry; apply Qltb_ge; lra).
  assert (Hmin : zero_num (if Qltb q0 m then Fin q0 else Fin m)).
  { destruct (Qltb q0 m) eqn:E.
    - exists q0. split; [reflexivity | assumption].
    - apply Qltb_ge in E. exists m. split; [reflexivity | lra]. }
  unfold black_sums, dark_sums. cbn.
  repeat split; try (apply zero_num_add_zero; assumption);
    try assumption; try lia.
  - destruct Hbr as [q [-> Hq]]. exists (q + q0). split; [reflexivity | lra].
  - exists mx. split; [reflexivity | assumption].
  - destruct Hmin as [q [-> Hq]]. exists q. split; [reflexivity | lra].
Qed.

Lemma black_sums_dark (acc : FrameSums) : black_sums acc -> dark_sums acc.
Proof. intros [H _]. exact H. Qed.

Lemma sample_loop_black (fuel : nat) (bytes : list Z) (stride i : Z)
    (acc : FrameSums) :
  black_pixels bytes = true -> (stride mod 4 = 0)%Z -> (0 <= stride)%Z ->
  (0 <= i)%Z -> (i mod 4 = 0)%Z ->
  black_sums acc -> black_sums (sample_loop fuel bytes stride i acc).
Proof.
  intros Hb Hs4 Hs0. revert i acc.
  induction fuel as [| fuel IH]; intros i acc Hi Hi4 Hacc; cbn [sample_loop].
  - exact Hacc.
  - destruct (Z.ltb_spec i (Z.of_nat (List.length bytes))) as [Hlt | Hge];
      [| exact Hacc].
    apply IH; [lia | |].
    + rewrite Z.add_mod, Hi4, Hs4 by lia. reflexivity.
    + apply sample_black_pixel; try assumption; [lia |].
      apply black_sums_dark, Hacc.
Qed.

Lemma frame_stride_mod4 (width height : Z) :
  (frame_stride width height mod 4 = 0)%Z.
Proof.
  unfold frame_stride.
  destruct (Z.max_spec 4 (width * height / 55000 * 4)) as [[_ ->] | [_ ->]].
  - apply Z.mod_mul. lia.
  - reflexivity.
Qed.

Lemma initial_sums_dark : dark_sums initial_sums.
Proof.
  unfold dark_sums, initial_sums, zero_num. cbn.
  repeat split; try (eexists; split; reflexivity); try lia.
  exists (inject_Z 255). split; [reflexivity | discriminate].
Qed.

Lemma frame_sums_black (bytes : list Z) (width height : Z) :
  bytes <> [] -> black_pixels bytes = true ->
  black_sums (frame_sums bytes width height).
Proof.
  intros Hne Hb. unfold frame_sums.
  destruct bytes as [| v rest] eqn:E; [congruence |]. rewrite <- E.
  assert (Hlen : (0 < Z.of_nat (List.length bytes))%Z)
    by (rewrite E; cbn [List.length]; lia).
  replace (List.length bytes) with (S (List.length rest))
    by (rewrite E; reflexivity).
  cbn [sample_loop].
  replace (List.length (v :: rest)) with (List.length bytes)
    by (rewrite E; reflexivity).
  rewrite <- E in Hb.
  destruct (Z.ltb_spec 0 (Z.of_nat (List.length bytes))) as [_ | Hge]; [| lia].
  pose proof (frame_stride_min width height).
  pose proof (frame_stride_mod4 width height).
  apply sample_loop_black; try assumption; try lia.
  apply sample_black_pixel; try assumption; [lia | reflexivity |].
  apply initial_sums_dark.
Qed.

Lemma rgbToHsl_zero (a b c : Q) :
  a == 0 -> b == 0 -> c == 0 ->
  exists l, rgbToHsl (Fin a) (Fin b) (Fin c) = (of_Z 0, of_Z 0, Fin l)
            /\ l == 0.
Proof.
  intros Ha Hb Hc. unfold rgbToHsl, of_Z. cbn [ndiv].
  change (Qeq_bool (inject_Z 255) 0) with false. cbn iota.
  assert (Ha' : a / inject_Z 255 == 0) by (rewrite Ha; reflexivity).
  assert (Hb' : b / inject_Z 255 == 0) by (rewrite Hb; reflexivity).
  assert (Hc' : c / inject_Z 255 == 0) by (rewrite Hc; reflexivity).
  set (ra := a / inject_Z 255) in *. set (rb := b / inject_Z 255) in *.
  set (rc := c / inject_Z 255) in *.
  unfold Math_max, Math_min. cbn [nlt].
  replace (Qltb ra rb) with false by (symmetry; apply Qltb_ge; lra).
  replace (Qltb rb ra) with false by (symmetry; apply Qltb_ge; lra).
  cbn [nlt].
  replace (Qltb ra rc) with false by (symmetry; apply Qltb_ge; lra).
  replace (Qltb rc ra) with false by (symmetry; apply Qltb_ge; lra).
  cbn [nsub nadd nneg strict_eq].
  replace (Qeq_bool (ra + - ra) (inject_Z 0)) with true
    by (symmetry; apply Qeq_bool_iff; change (inject_Z 0) with 0; lra).
  cbn [negb]. change (Qeq_bool (inject_Z 2) 0) with false. cbn iota.
  eexists. split; [reflexivity |].
  change (inject_Z 2) with 2. rewrite Ha'. reflexivity.
Qed.

Lemma ngt_zero (x c : Q) : x == 0 -> 0 <= c -> ngt (Fin x) (Fin c) = false.
Proof. intros Hx Hc. cbn. apply Qltb_ge. lra. Qed.

Lemma describeColor_zero (a b c : Q) :
  a == 0 -> b == 0 -> c == 0 ->
  describeColor (Fin a) (Fin b) (Fin c) = "soft rose".
Proof.
  intros Ha Hb Hc. unfold describeColor.
  destruct (rgbToHsl_zero a b c Ha Hb Hc) as [l [-> _]]. reflexivity.
Qed.

Lemma zero_num_average (x : number) (n : Z) :
  zero_num x -> (1 <= n)%Z -> zero_num (x / of_Z n)%num.
Proof.
  intros [q [-> Hq]] Hn. cbn [ndiv of_Z].
  rewrite Qeq_bool_false.
  - exists (q / inject_Z n). split; [reflexivity |]. rewrite Hq.
    unfold Qdiv. ring.
  - intros E. apply (inject_Z_injective n 0) in E. lia.
Qed.

(** C2, as stated, fails.  For a single black pixel the hue is 0, and the
    "soft rose" row (h >= 330 or h < 15) comes before the "graphite neutral"
    row in the descriptor table. *)
Lemma black_frame_palette_is_soft_rose :
  black_pixels [0; 0; 0; 255]%Z = true
  /\ fst (fst (rgbToHsl (of_Z 0) (of_Z 0) (of_Z 0))) = of_Z 0
  /\ palette (analyzeFrame (mkImageData [0; 0; 0; 255]%Z) 1 1) = "soft rose"
  /\ palette (analyzeFrame (mkImageData [0; 0; 0; 255]%Z) 1 1)
     <> "graphite neutral".
Proof.
  repeat split; try (vm_compute; reflexivity). vm_compute. discriminate.
Qed.

(** C2, amended.  On a non-empty buffer of whole RGBA pixels that are all
    black (R = G = B = 0, any alpha), [analyzeFrame] returns lighting
    "shadow-heavy lighting", contrast "soft contrast", saturation
    "desaturated look", mood "brooding atmosphere", energy "contemplative
    pacing" and palette "soft rose". *)
Theorem analyzeFrame_all_black (bytes : list Z) (width height : Z) :
  bytes <> [] -> black_pixels bytes = true ->
  analyzeFrame (mkImageData bytes) width height = black_analysis.
Proof.
  intros Hne Hb.
  destruct (frame_sums_black bytes width height Hne Hb)
    as [[Hr [Hg [Hbl [Hbr [Hmx _]]]]] [Hmn Hs]].
  unfold analyzeFrame. cbn [data].
  destruct (Z.eqb_spec (sampled (frame_sums bytes width height)) 0) as [E | _];
    [lia |].
  set (sums := frame_sums bytes width height) in *.
  destruct (zero_num_average _ _ Hr Hs) as [ar [-> Har]].
  destruct (zero_num_average _ _ Hg Hs) as [ag [-> Hag]].
  destruct (zero_num_average _ _ Hbl Hs) as [ab [-> Hab]].
  destruct (zero_num_average _ _ Hbr Hs) as [abr [-> Habr]].
  destruct Hmx as [mx [-> Hmx]]. destruct Hmn as [mn [-> Hmn]].
  rewrite (describeColor_zero ar ag ab Har Hag Hab).
  destruct (rgbToHsl_zero ar ag ab Har Hag Hab) as [l [-> Hl]].
  unfold of_Z. cbn [nsub nadd nneg ndiv].
  change (Qeq_bool (inject_Z 255) 0) with false. cbn iota.
  assert (Hc : (mx + - mn) / inject_Z 255 == 0)
    by (rewrite Hmx, Hmn; reflexivity).
  rewrite !(ngt_zero abr) by (assumption || discriminate).
  rewrite !(ngt_zero _ _ Hc) by discriminate.
  rewrite !(ngt_zero l) by (assumption || discriminate).
  reflexivity.
Qed.

Lemma analyzeFrame_all_black_witness :
  analyzeFrame (mkImageData [0; 0; 0; 255; 0; 0; 0; 128]%Z) 2 1
  = black_analysis.
Proof.
  apply (analyzeFrame_all_black [0; 0; 0; 255; 0; 0; 0; 128]%Z 2 1);
    [discriminate | reflexivity].
Defined.

(** ** Time formatting *)

Lemma forallb_Zseq (P : Z -> bool) (i : Z) (k : nat) :
  forallb P (Zseq i k) = true ->
  forall v, (i <= v < i + Z.of_nat k)%Z -> P v = true.
Proof.
  intros H v Hv. rewrite forallb_forall in H. apply H, Zseq_In, Hv.
Qed.

Lemma pad_two_digits (v : Z) :
  (0 <= v < 100)%Z ->
  pad v = two_digits v
  /\ is_digit (digit_char (v / 10)) = true
  /\ is_digit (digit_char (v mod 10)) = true.
Proof.
  intros Hv.
  assert (H : (String.eqb (pad v) (two_digits v)
               && is_digit (digit_char (v / 10))
               && is_digit (digit_char (v mod 10)))%bool = true).
  { revert v Hv.
    apply (forallb_Zseq
             (fun v => (String.eqb (pad v) (two_digits v)
                        && is_digit (digit_char (v / 10))
                        && is_digit (digit_char (v mod 10)))%bool) 0 100).
    vm_compute. reflexivity. }
  rewrite !andb_true_iff, String.eqb_eq in H. tauto.
Qed.

Lemma Qfloor_range (x : Q) (a b : Z) :
  inject_Z a <= x -> x < inject_Z b -> (a <= Qfloor x < b)%Z.
Proof.
  intros Ha Hb. split.
  - rewrite <- (Qfloor_Z a). apply Qfloor_resp_le, Ha.
  - rewrite Zlt_Qlt. apply Qle_lt_trans with x; [apply Qfloor_le | exact Hb].
Qed.

Lemma Qtrunc_nonneg (x : Q) : 0 <= x -> Qtrunc x = Qfloor x.
Proof.
  intros Hx. unfold Qtrunc. apply Qle_bool_iff in Hx. rewrite Hx. reflexivity.
Qed.

Lemma formatTime_fields (q : Q) :
  0 <= q -> q < 6000 ->
  (0 <= Qfloor (q / 60) < 100)%Z
  /\ (0 <= Qfloor (Qrem q 60) < 60)%Z
  /\ (0 <= Qfloor ((q - inject_Z (Qfloor q)) * 1000) / 10 < 100)%Z.
Proof.
  intros H0 H1.
  assert (Hq60 : 0 <= q / 60 /\ q / 60 < 100).
  { split.
    - apply Qle_shift_div_l; [reflexivity | lra].
    - apply Qlt_shift_div_r; [reflexivity | lra]. }
  split; [apply Qfloor_range; change (inject_Z 0) with 0;
          change (inject_Z 100) with 100; tauto |].
  split.
  - unfold Qrem. rewrite Qtrunc_nonneg by tauto.
    pose proof (Qfloor_le (q / 60)) as Hlo.
    pose proof (Qlt_floor (q / 60)) as Hhi.
    rewrite inject_Z_plus in Hhi. change (inject_Z 1) with 1 in Hhi.
    set (f := inject_Z (Qfloor (q / 60))) in *.
    assert (Hq : q == 60 * (q / 60)) by (field; discriminate).
    apply Qfloor_range; change (inject_Z 0) with 0;
      change (inject_Z 60) with 60; lra.
  - pose proof (Qfloor_le q) as Hlo. pose proof (Qlt_floor q) as Hhi.
    rewrite inject_Z_plus in Hhi. change (inject_Z 1) with 1 in Hhi.
    set (f := inject_Z (Qfloor q)) in *.
    assert (Hms : (0 <= Qfloor ((q - f) * 1000) < 1000)%Z).
    { apply Qfloor_range; change (inject_Z 0) with 0;
        change (inject_Z 1000) with 1000; lra. }
    split; [apply Z.div_pos; lia | apply Z.div_lt_upper_bound; lia].
Qed.

(** C10, as stated, fails.  For the finite input -1 the minute and second
    fields are the text "-1"; for 6000 seconds the minute field has three
    digits. *)
Lemma formatTime_negative_seconds :
  Number_isFinite (Fin (-1)) = true
  /\ formatTime (Fin (-1)) = "-1:-1.00"
  /\ shape_mm_ss_cc (formatTime (Fin (-1))) = false
  /\ formatTime (Fin 6000) = "100:00.00"
  /\ shape_mm_ss_cc (formatTime (Fin 6000)) = false.
Proof. repeat split; vm_compute; reflexivity. Qed.

(** C10, amended.  [formatTime] returns "00:00" for NaN and for both
    infinities.  For every finite number of seconds with
    0 <= seconds < 6000 it returns a string of the shape mm:ss.cc whose
    fields are floor(seconds/60), floor(seconds % 60) and the hundredths
    floor(floor(frac(seconds)*1000)/10), each written with exactly two
    decimal digits. *)
Theorem formatTime_shape (q : Q) :
  0 <= q -> q < 6000 ->
  formatTime NaN = "00:00" /\ formatTime PInf = "00:00"
  /\ formatTime NInf = "00:00"
  /\ formatTime (Fin q)
     = two_digits (Qfloor (q / 60)) ++ ":" ++ two_digits (Qfloor (Qrem q 60))
       ++ "."
       ++ two_digits (Qfloor ((q - inject_Z (Qfloor q)) * 1000) / 10)
  /\ shape_mm_ss_cc (formatTime (Fin q)) = true.
Proof.
  intros H0 H1.
  destruct (formatTime_fields q H0 H1) as [Hm [Hs60 Hc]].
  assert (Hs : (0 <= Qfloor (Qrem q 60) < 100)%Z) by lia.
  repeat split.
  - unfold formatTime.
    rewrite (proj1 (pad_two_digits _ Hm)), (proj1 (pad_two_digits _ Hs)),
      (proj1 (pad_two_digits _ Hc)). reflexivity.
  - unfold formatTime.
    destruct (pad_two_digits _ Hm) as [-> [Em1 Em2]].
    destruct (pad_two_digits _ Hs) as [-> [Es1 Es2]].
    destruct (pad_two_digits _ Hc) as [-> [Ec1 Ec2]].
    cbn [two_digits append shape_mm_ss_cc].
    rewrite Em1, Em2, Es1, Es2, Ec1, Ec2. reflexivity.
Qed.

Lemma formatTime_shape_witness :
  formatTime (Fin (7325 # 100)) = "01:13.25"
  /\ shape_mm_ss_cc (formatTime (Fin (7325 # 100))) = true.
Proof.
  destruct (formatTime_shape (7325 # 100)) as [_ [_ [_ [E S]]]];
    [unfold Qle; simpl; lia | reflexivity |].
  split; [rewrite E; reflexivity | exact S].
Defined.

(** ** The compiled prompt, line by line *)

Lemma lines_not_nil (s : string) : lines s <> [].
Proof.
  induction s as [| c rest IH]; cbn; [discriminate |].
  destruct (is_newline c); [discriminate |].
  destruct (lines rest); [contradiction | discriminate].
Qed.

Lemma lines_single_line (s : string) : single_line s = true -> lines s = [s].
Proof.
  induction s as [| c rest IH]; cbn; [reflexivity |].
  destruct (is_newline c); cbn; [discriminate |].
  intros H. rewrite (IH H). reflexivity.
Qed.

Lemma lines_prefix (p s : string) :
  single_line p = true ->
  lines (p ++ s)
  = match lines s with
    | l :: ls => (p ++ l) :: ls
    | [] => [p]
    end.
Proof.
  induction p as [| c rest IH]; cbn [append single_line lines].
  - intros _. destruct (lines s) eqn:E; [| reflexivity].
    now apply lines_not_nil in E.
  - destruct (is_newline c); cbn; [discriminate |].
    intros H. rewrite (IH H). destruct (lines s); reflexivity.
Qed.

Lemma lines_newline_between (a b : string) :
  lines (a ++ newline ++ b) = (lines a ++ lines b)%list.
Proof.
  induction a as [| c rest IH]; cbn [append lines].
  - reflexivity.
  - destruct (is_newline c); [rewrite IH; reflexivity |].
    rewrite IH. destruct (lines rest) eqn:E; [| reflexivity].
    now apply lines_not_nil in E.
Qed.

Lemma lines_join (parts : list string) :
  parts <> [] ->
  lines (join newline parts) = flat_map lines parts.
Proof.
  induction parts as [| x rest IH]; [congruence |]. intros _.
  destruct rest as [| y rest].
  - cbn. now rewrite app_nil_r.
  - change (join newline (x :: y :: rest))
      with (x ++ newline ++ join newline (y :: rest)).
    rewrite lines_newline_between, IH by discriminate. reflexivity.
Qed.

Lemma single_line_app (a b : string) :
  single_line (a ++ b) = single_line a && single_line b.
Proof.
  induction a as [| c rest IH]; cbn; [reflexivity |].
  rewrite IH. now rewrite andb_assoc.
Qed.

Lemma single_line_join (sep : string) (parts : list string) :
  single_line sep = true -> forallb single_line parts = true ->
  single_line (join sep parts) = true.
Proof.
  intros Hsep. induction parts as [| x rest IH]; [reflexivity |].
  cbn [forallb]. rewrite andb_true_iff. intros [Hx Hrest].
  destruct rest as [| y rest]; [exact Hx |].
  change (join sep (x :: y :: rest)) with (x ++ sep ++ join sep (y :: rest)).
  rewrite !single_line_app, Hx, Hsep, (IH Hrest). reflexivity.
Qed.

Lemma flat_map_lines_single (parts : list string) :
  forallb single_line parts = true -> flat_map lines parts = parts.
Proof.
  induction parts as [| x rest IH]; [reflexivity |].
  cbn [forallb flat_map]. rewrite andb_true_iff. intros [Hx Hrest].
  rewrite (lines_single_line x Hx), (IH Hrest). reflexivity.
Qed.

Lemma nonempty_join (sep x : string) (rest : list string) :
  nonempty x = true -> nonempty (join sep (x :: rest)) = true.
Proof.
  intros Hx. destruct x as [| c x]; [discriminate |].
  destruct rest; reflexivity.
Qed.

Lemma string_of_uint_single_line (d : Decimal.uint) :
  single_line (NilEmpty.string_of_uint d) = true.
Proof. induction d; cbn; auto. Qed.

Lemma Z_toString_single_line (value : Z) :
  single_line (Z_toString value) = true.
Proof.
  unfold Z_toString. destruct (Z.to_int value) as [d | d]; cbn;
    apply string_of_uint_single_line.
Qed.

Lemma take_cyclic_single_line (n : nat) (padString cur : string) :
  single_line padString = true -> single_line cur = true ->
  single_line (take_cyclic n padString cur) = true.
Proof.
  intros Hp. revert cur. induction n as [| n IH]; intros cur Hc; cbn;
    [reflexivity |].
  destruct cur as [| c rest].
  - destruct padString as [| c rest]; [reflexivity |].
    cbn in Hp |- *. apply andb_true_iff in Hp. destruct Hp as [-> Hrest].
    cbn. apply IH, Hrest.
  - cbn in Hc |- *. apply andb_true_iff in Hc. destruct Hc as [-> Hrest].
    cbn. apply IH, Hrest.
Qed.

Lemma pad_single_line (value : Z) : single_line (pad value) = true.
Proof.
  unfold pad, padStart.
  destruct (2 <=? String.length (Z_toString value))%nat.
  - apply Z_toString_single_line.
  - rewrite single_line_app, Z_toString_single_line.
    rewrite take_cyclic_single_line; reflexivity.
Qed.

Lemma formatTime_single_line (seconds : number) :
  single_line (formatTime seconds) = true.
Proof.
  destruct seconds as [q | | |]; try reflexivity.
  unfold formatTime. rewrite !single_line_app, !pad_single_line. reflexivity.
Qed.

Lemma upper_char_newline (c : ascii) :
  is_newline (upper_char c) = is_newline c.
Proof. destruct c as [[] [] [] [] [] [] [] []]; reflexivity. Qed.

Lemma capitalize_single_line (value : string) :
  single_line (capitalize value) = single_line value.
Proof.
  destruct value as [| c rest]; [reflexivity |].
  cbn. now rewrite upper_char_newline.
Qed.

Lemma focusLabel_single_line (id : string) :
  single_line id = true -> single_line (focusLabel id) = true.
Proof.
  intros Hid. unfold focusLabel, focusOptions. cbn [find fst snd].
  repeat (match goal with
          | |- context [String.eqb ?a id] => destruct (String.eqb a id)
          end; [reflexivity |]).
  exact Hid.
Qed.

Lemma focus_labels_single_line (focusAreas : list string) :
  forallb single_line focusAreas = true ->
  single_line (join ", " (map focusLabel focusAreas)) = true.
Proof.
  intros H. apply single_line_join; [reflexivity |].
  rewrite forallb_forall in *. intros x Hx.
  apply in_map_iff in Hx. destruct Hx as [id [<- Hid]].
  apply focusLabel_single_line, H, Hid.
Qed.

Lemma scene_line_single_line (scene : Scene) :
  plain_scene scene = true -> single_line (scene_line scene) = true.
Proof.
  unfold plain_scene, scene_line, middle_dot. rewrite !andb_true_iff.
  intros [[[[Hp Hl] He] _] _].
  rewrite !single_line_app, formatTime_single_line, Hp, Hl, He. reflexivity.
Qed.

Lemma master_parts_kept (scenes : list Scene)
    (projectTitle audienceNotes tone objective stylePreset : string)
    (focusAreas : list string) (customDirectives : string) :
  filter nonempty
    (master_parts scenes projectTitle audienceNotes tone objective
       stylePreset focusAreas customDirectives)
  = ([ project_line projectTitle; objective_line objective;
       tone_line tone stylePreset ]
     ++ focus_entry focusAreas
     ++ audience_entry audienceNotes
     ++ ["Scene ingredients:"]
     ++ kept (join newline (map scene_line scenes))
     ++ ["Detailed prompt instructions:"]
     ++ kept (join newline (map summary scenes))
     ++ directives_entry customDirectives)%list.
Proof.
  unfold master_parts, kept, project_line, objective_line, tone_line,
    focus_entry, audience_entry, directives_entry. cbn [filter].
  destruct (nonempty projectTitle), focusAreas, (nonempty audienceNotes),
    (nonempty (join newline (map scene_line scenes))),
    (nonempty (join newline (map summary scenes))),
    (nonempty customDirectives); reflexivity.
Qed.

Lemma kept_join_lines (parts : list string) :
  forallb single_line parts = true -> forallb nonempty parts = true ->
  flat_map lines (kept (join newline parts)) = parts.
Proof.
  intros Hs Hn. destruct parts as [| x rest]; [reflexivity |].
  unfold kept. rewrite nonempty_join
    by (cbn in Hn; apply andb_true_iff in Hn; tauto).
  cbn [flat_map]. rewrite app_nil_r, lines_join by discriminate.
  apply flat_map_lines_single, Hs.
Qed.

Lemma nonempty_true (s : string) : nonempty s = true <-> s <> EmptyString.
Proof. destruct s; cbn; split; congruence. Qed.

Lemma project_line_single (projectTitle : string) :
  single_line projectTitle = true ->
  single_line (project_line projectTitle) = true.
Proof.
  intros H. unfold project_line.
  destruct (nonempty projectTitle); [| reflexivity].
  rewrite single_line_app, H. reflexivity.
Qed.

Lemma objective_line_single (objective : string) :
  single_line objective = true ->
  single_line (objective_line objective) = true.
Proof.
  intros H. unfold objective_line.
  rewrite !single_line_app, capitalize_single_line, H. reflexivity.
Qed.

Lemma tone_line_single (tone stylePreset : string) :
  single_line tone = true -> single_line stylePreset = true ->
  single_line (tone_line tone stylePreset) = true.
Proof.
  intros Ht Hs. unfold tone_line.
  rewrite !single_line_app, capitalize_single_line, Ht, Hs. reflexivity.
Qed.

Lemma focus_entry_single (focusAreas : list string) :
  forallb single_line focusAreas = true ->
  forallb single_line (focus_entry focusAreas) = true.
Proof.
  intros H. unfold focus_entry. destruct focusAreas as [| id rest] eqn:E;
    [reflexivity |].
  cbn [forallb]. rewrite !single_line_app, focus_labels_single_line by exact H.
  reflexivity.
Qed.

Lemma audience_entry_single (audienceNotes : string) :
  single_line audienceNotes = true ->
  forallb single_line (audience_entry audienceNotes) = true.
Proof.
  intros H. unfold audience_entry. destruct (nonempty audienceNotes);
    [| reflexivity].
  cbn [forallb]. rewrite single_line_app, H. reflexivity.
Qed.

Lemma buildMasterPrompt_prompt_lines (scenes : list Scene)
    (projectTitle audienceNotes tone objective stylePreset : string)
    (focusAreas : list string) (customDirectives : string) :
  plain_config projectTitle audienceNotes tone objective stylePreset
    focusAreas = true ->
  forallb plain_scene scenes = true ->
  lines (buildMasterPrompt scenes projectTitle audienceNotes tone objective
           stylePreset focusAreas customDirectives)
  = prompt_lines scenes projectTitle audienceNotes tone objective stylePreset
      focusAreas customDirectives.
Proof.
  unfold plain_config. rewrite !andb_true_iff.
  intros [[[[[Ht Hn] Hto] Ho] Hst] Hf] Hsc.
  unfold buildMasterPrompt, prompt_lines.
  rewrite master_parts_kept, lines_join by discriminate.
  rewrite !flat_map_app.
  assert (Hscene : forallb single_line (map scene_line scenes) = true
                   /\ forallb nonempty (map scene_line scenes) = true
                   /\ forallb single_line (map summary scenes) = true
                   /\ forallb nonempty (map summary scenes) = true).
  { rewrite !forallb_forall in *.
    repeat split; intros x Hx; apply in_map_iff in Hx;
      destruct Hx as [sc [<- Hin]]; specialize (Hsc sc Hin);
      unfold plain_scene in Hsc; rewrite !andb_true_iff in Hsc.
    - apply scene_line_single_line. unfold plain_scene.
      rewrite !andb_true_iff. exact Hsc.
    - reflexivity.
    - tauto.
    - tauto. }
  destruct Hscene as [H1 [H2 [H3 H4]]].
  rewrite (kept_join_lines _ H1 H2), (kept_join_lines _ H3 H4).
  rewrite (flat_map_lines_single (focus_entry focusAreas))
    by (apply focus_entry_single, Hf).
  rewrite (flat_map_lines_single (audience_entry audienceNotes))
    by (apply audience_entry_single, Hn).
  rewrite (flat_map_lines_single [_; _; _]).
  2:{ cbn [forallb]. rewrite project_line_single, objective_line_single,
        tone_line_single by assumption. reflexivity. }
  do 9 f_equal.
  unfold directives_entry. destruct (nonempty customDirectives);
    [| reflexivity].
  cbn [flat_map]. rewrite app_nil_r. reflexivity.
Qed.

Lemma prefixed_not_empty (c : ascii) (p s : string) : String c p ++ s <> EmptyString.
Proof. discriminate. Qed.

Lemma prompt_lines_blank (scenes : list Scene)
    (projectTitle audienceNotes tone objective stylePreset : string)
    (focusAreas : list string) (customDirectives : string) :
  forallb plain_scene scenes = true ->
  In EmptyString
     (prompt_lines scenes projectTitle audienceNotes tone objective
        stylePreset focusAreas customDirectives)
  <-> customDirectives <> EmptyString.
Proof.
  intros Hsc. unfold prompt_lines. rewrite <- nonempty_true. split.
  - destruct (nonempty customDirectives); [reflexivity |].
    rewrite !in_app_iff. cbn [In].
    unfold project_line, objective_line, tone_line, focus_entry,
      audience_entry.
    intros [H | [H | [H | [H | [H | [H | [H | H]]]]]]].
    + destruct (nonempty projectTitle);
        destruct H as [H | [H | [H | []]]]; discriminate H.
    + destruct focusAreas; [destruct H |].
      destruct H as [H | []]; discriminate H.
    + destruct (nonempty audienceNotes); [| destruct H].
      destruct H as [H | []]; discriminate H.
    + destruct H as [H | []]; discriminate H.
    + apply in_map_iff in H. destruct H as [sc [H _]]. discriminate H.
    + destruct H as [H | []]; discriminate H.
    + apply in_map_iff in H. destruct H as [sc [H Hin]].
      rewrite forallb_forall in Hsc. specialize (Hsc sc Hin).
      unfold plain_scene in Hsc. rewrite !andb_true_iff in Hsc.
      destruct Hsc as [_ Hne]. rewrite H in Hne. discriminate Hne.
    + destruct H.
  - intros ->. rewrite !in_app_iff. do 7 right. left. reflexivity.
Qed.

(** C7, as stated, fails.  With custom directives the entry
    "\nExtra directives: ..." starts with a newline, so the joined text has
    an empty line before it.  A free-text field that itself holds an empty
    line, such as audience notes of two paragraphs, puts one into the text
    as well. *)
Lemma custom_directives_leave_blank_line :
  buildMasterPrompt [] EmptyString EmptyString "documentary" "narrative prompt"
    "hyper-detailed" [] "Keep it short"
  = "Project: Untitled video prompt" ++ newline
    ++ "Objective: Narrative prompt for AI generation." ++ newline
    ++ "Creative tone: Documentary blended with hyper-detailed." ++ newline
    ++ "Scene ingredients:" ++ newline
    ++ "Detailed prompt instructions:" ++ newline
    ++ newline
    ++ "Extra directives: Keep it short"
  /\ In EmptyString
       (lines (buildMasterPrompt [] EmptyString EmptyString "documentary" "narrative prompt"
                 "hyper-detailed" [] "Keep it short"))
  /\ In EmptyString
       (lines (buildMasterPrompt [] EmptyString multiline_notes "documentary"
                 "narrative prompt" "hyper-detailed" [] EmptyString)).
Proof.
  split; [vm_compute; reflexivity |]. split.
  - vm_compute. do 5 right. left. reflexivity.
  - vm_compute. do 4 right. left. reflexivity.
Qed.

(** C7, amended.  For every scene sequence and configuration, the entries
    that [filter(Boolean)] keeps of the array are, in this order: the
    project, objective and tone entries; the "Prioritise ..." entry (array
    index 3), kept if and only if a focus area is selected; the
    "Audience / usage: ..." entry (array index 4), kept if and only if
    audienceNotes is non-empty; "Scene ingredients:"; the scene lines, if
    any; "Detailed prompt instructions:"; the summaries, if any; and
    "\nExtra directives: ..." if customDirectives is non-empty.  The text is
    these entries joined by newlines.  When moreover the title, the audience
    notes, the tone, the objective, the style preset and the focus ids
    contain no newline, and every scene has a non-empty summary and
    newline-free fields, every entry before the directives is one line of
    the text (one line per scene under each heading), the directives entry
    is an empty line followed by the lines of "Extra directives: ...", and
    the text has an empty line if and only if customDirectives is
    non-empty. *)
Theorem buildMasterPrompt_optional_lines (scenes : list Scene)
    (projectTitle audienceNotes tone objective stylePreset : string)
    (focusAreas : list string) (customDirectives : string) :
  let parts :=
    master_parts scenes projectTitle audienceNotes tone objective
      stylePreset focusAreas customDirectives in
  let text :=
    buildMasterPrompt scenes projectTitle audienceNotes tone objective
      stylePreset focusAreas customDirectives in
  text = join newline (filter nonempty parts)
  /\ filter nonempty parts
     = ([ project_line projectTitle; objective_line objective;
          tone_line tone stylePreset ]
        ++ focus_entry focusAreas
        ++ audience_entry audienceNotes
        ++ ["Scene ingredients:"]
        ++ kept (join newline (map scene_line scenes))
        ++ ["Detailed prompt instructions:"]
        ++ kept (join newline (map summary scenes))
        ++ directives_entry customDirectives)%list
  /\ (nonempty (nth 3 parts EmptyString) = true <-> focusAreas <> [])
  /\ (nonempty (nth 4 parts EmptyString) = true
      <-> audienceNotes <> EmptyString)
  /\ (focus_entry focusAreas
      = ["Prioritise " ++ join ", " (map focusLabel focusAreas) ++ "."]
      <-> focusAreas <> [])
  /\ (focus_entry focusAreas = [] <-> focusAreas = [])
  /\ (audience_entry audienceNotes = ["Audience / usage: " ++ audienceNotes]
      <-> audienceNotes <> EmptyString)
  /\ (audience_entry audienceNotes = [] <-> audienceNotes = EmptyString)
  /\ (plain_config projectTitle audienceNotes tone objective stylePreset
        focusAreas = true ->
      forallb plain_scene scenes = true ->
      lines text
      = prompt_lines scenes projectTitle audienceNotes tone objective
          stylePreset focusAreas customDirectives
      /\ (In EmptyString (lines text) <-> customDirectives <> EmptyString)).
Proof.
  intros parts text. subst parts text.
  split; [reflexivity |].
  split; [apply master_parts_kept |].
  split; [destruct focusAreas; cbn; split; congruence |].
  split; [destruct audienceNotes; cbn; split; congruence |].
  split; [unfold focus_entry; destruct focusAreas; split; congruence |].
  split; [unfold focus_entry; destruct focusAreas; split; congruence |].
  split; [unfold audience_entry; destruct audienceNotes; cbn; split;
          congruence |].
  split; [unfold audience_entry; destruct audienceNotes; cbn; split;
          congruence |].
  intros Hcfg Hsc.
  rewrite (buildMasterPrompt_prompt_lines _ _ _ _ _ _ _ _ Hcfg Hsc).
  split; [reflexivity | apply prompt_lines_blank, Hsc].
Qed.

Lemma buildMasterPrompt_optional_lines_witness :
  let text :=
    buildMasterPrompt [example_scene] "Harbour at night" "Pitch deck"
      "moody noir" "narrative prompt" "hyper-detailed"
      ["visuals"; "lighting"] EmptyString in
  lines text
  = prompt_lines [example_scene] "Harbour at night" "Pitch deck" "moody noir"
      "narrative prompt" "hyper-detailed" ["visuals"; "lighting"] EmptyString
  /\ In "Audience / usage: Pitch deck" (lines text)
  /\ In "Prioritise visual style, lighting." (lines text)
  /\ ~ In EmptyString (lines text).
Proof.
  destruct (buildMasterPrompt_optional_lines [example_scene]
              "Harbour at night" "Pitch deck" "moody noir" "narrative prompt"
              "hyper-detailed" ["visuals"; "lighting"] EmptyString)
    as [_ [_ [_ [_ [_ [_ [_ [_ Hplain]]]]]]]].
  destruct Hplain as [Hlines Hblank]; [reflexivity | reflexivity |].
  split; [exact Hlines |]. split; [| split].
  - rewrite Hlines. cbn. tauto.
  - rewrite Hlines. cbn. tauto.
  - intros H. apply Hblank in H. now apply H.
Defined.

(** ** The seek promise *)

Lemma same_listener_spec (type : string) (cb : Callback) (l : Listener) :
  same_listener type cb l = true <-> event_type l = type /\ callback l = cb.
Proof.
  unfold same_listener. rewrite andb_true_iff, String.eqb_eq.
  split; intros [Ht Hc]; split; try assumption.
  - destruct (callback l), cb; cbn in Hc; try discriminate; try reflexivity.
    apply Nat.eqb_eq in Hc. now subst.
  - rewrite Hc. destruct cb; cbn; try reflexivity. apply Nat.eqb_refl.
Qed.

Lemma no_handlers_filter (f : Listener -> bool) (ls : list Listener) :
  no_handlers ls = true -> no_handlers (filter f ls) = true.
Proof.
  unfold no_handlers. rewrite !forallb_forall. intros H l Hl.
  apply filter_In in Hl. apply H, Hl.
Qed.

Lemma own_types_filter (f : Listener -> bool) (ls : list Listener) :
  own_types ls = true -> own_types (filter f ls) = true.
Proof.
  unfold own_types. rewrite !forallb_forall. intros H l Hl.
  apply filter_In in Hl. apply H, Hl.
Qed.

Lemma no_handlers_unregistered (type : string) (cb : Callback)
    (ls : list Listener) :
  no_handlers ls = true -> (forall id, cb <> external id) ->
  existsb (same_listener type cb) ls = false.
Proof.
  intros Hno Hcb. apply not_true_iff_false. intros H.
  apply existsb_exists in H. destruct H as [l [Hl Hsame]].
  apply same_listener_spec in Hsame. destruct Hsame as [_ Hc].
  unfold no_handlers in Hno. rewrite forallb_forall in Hno.
  specialize (Hno l Hl). rewrite Hc in Hno.
  destruct cb; try discriminate. now apply (Hcb id).
Qed.

Lemma registered_kept (type type' : string) (cb cb' : Callback)
    (ls : list Listener) :
  cb <> cb' ->
  existsb (same_listener type cb) ls = true ->
  existsb (same_listener type cb)
    (filter (fun l => negb (same_listener type' cb' l)) ls) = true.
Proof.
  intros Hne H. apply existsb_exists in H. destruct H as [l [Hl Hsame]].
  apply existsb_exists. exists l. split; [| exact Hsame].
  apply filter_In. split; [exact Hl |].
  apply negb_true_iff, not_true_iff_false. intros H'.
  apply same_listener_spec in Hsame, H'. destruct Hsame, H'. congruence.
Qed.

Lemma cleanup_no_handlers (ls : list Listener) :
  own_types ls = true ->
  no_handlers
    (filter (fun l => negb (same_listener "error" handleError l))
       (filter (fun l => negb (same_listener "seeked" handleSeeked l)) ls))
  = true.
Proof.
  unfold own_types, no_handlers. rewrite !forallb_forall. intros H l Hl.
  apply filter_In in Hl. destruct Hl as [Hl He].
  apply filter_In in Hl. destruct Hl as [Hl Hs].
  specialize (H l Hl). unfold same_listener in He, Hs.
  destruct (callback l); cbn in He, Hs; [| | reflexivity].
  - rewrite H in Hs. discriminate Hs.
  - rewrite H in He. discriminate He.
Qed.

Lemma own_types_unregistered (type : string) (cb : Callback)
    (ls : list Listener) :
  own_types ls = true -> fires type (mkListener type cb true) = false ->
  (forall id, cb <> external id) ->
  existsb (same_listener type cb) ls = false.
Proof.
  intros Hown Hf Hcb. apply not_true_iff_false. intros H.
  apply existsb_exists in H. destruct H as [l [Hl Hsame]].
  apply same_listener_spec in Hsame. destruct Hsame as [Ht Hc].
  unfold own_types in Hown. rewrite forallb_forall in Hown.
  specialize (Hown l Hl). rewrite Hc, Ht in Hown.
  unfold fires in Hf. cbn [callback] in Hf.
  destruct cb; try congruence; exfalso; now apply (Hcb id).
Qed.

Lemma Settled_remove (p : PromiseState) (type : string) (cb : Callback)
    (st : SeekState) :
  Settled p st -> Settled p (removeEventListener type cb st).
Proof.
  intros [Hp [Hc Hn]]. unfold Settled, removeEventListener. cbn.
  repeat split; try assumption. apply no_handlers_filter, Hn.
Qed.

Lemma Waiting_remove_external (type : string) (id : nat) (st : SeekState) :
  Waiting st -> Waiting (removeEventListener type (external id) st).
Proof.
  intros [Hp [Hc [Hs [He Ho]]]].
  unfold Waiting, removeEventListener, registered. cbn.
  repeat split; try assumption.
  - apply registered_kept; [discriminate | exact Hs].
  - apply registered_kept; [discriminate | exact He].
  - apply own_types_filter, Ho.
Qed.

Lemma deliver_to_settled (p : PromiseState) (type : string) (st : SeekState)
    (l : Listener) :
  Settled p st -> Settled p (deliver_to type st l).
Proof.
  intros Hst. unfold deliver_to.
  destruct (callback l) as [| | id] eqn:Hcb.
  - pose proof Hst as [_ [_ Hn]].
    rewrite (no_handlers_unregistered _ _ _ Hn) by discriminate.
    exact Hst.
  - pose proof Hst as [_ [_ Hn]].
    rewrite (no_handlers_unregistered _ _ _ Hn) by discriminate.
    exact Hst.
  - destruct (existsb _ _); [| exact Hst]. cbn [run_callback].
    destruct (once l); [apply Settled_remove |]; exact Hst.
Qed.

Lemma deliver_to_quiet (type : string) (st : SeekState) (l : Listener) :
  Waiting st -> fires type l = false -> Waiting (deliver_to type st l).
Proof.
  intros Hst Hf. unfold deliver_to. unfold fires in Hf.
  destruct (callback l) as [| | id] eqn:Hcb.
  - destruct Hst as [Hp [Hc [Hs [He Ho]]]].
    rewrite (own_types_unregistered type handleSeeked _ Ho)
      by (assumption || discriminate).
    repeat split; assumption.
  - destruct Hst as [Hp [Hc [Hs [He Ho]]]].
    rewrite (own_types_unregistered type handleError _ Ho)
      by (assumption || discriminate).
    repeat split; assumption.
  - destruct (existsb _ _); [| exact Hst]. cbn [run_callback].
    destruct (once l); [apply Waiting_remove_external |]; exact Hst.
Qed.

Lemma Waiting_remove_own (type : string) (cb : Callback) (st : SeekState) :
  Waiting st ->
  promise (removeEventListener type cb st) = Pending
  /\ settle_calls (removeEventListener type cb st) = 0%nat
  /\ own_types (listeners (removeEventListener type cb st)) = true.
Proof.
  intros [Hp [Hc [_ [_ Ho]]]]. cbn. repeat split; try assumption.
  apply own_types_filter, Ho.
Qed.

Lemma settle_after_cleanup (st : SeekState) :
  promise st = Pending -> settle_calls st = 0%nat ->
  own_types (listeners st) = true ->
  Settled Fulfilled (resolve (cleanup st))
  /\ Settled (Rejected "seek failed") (reject "seek failed" (cleanup st)).
Proof.
  intros Hp Hc Ho. unfold Settled, resolve, reject, cleanup,
    removeEventListener. cbn. rewrite Hp, Hc.
  repeat split; apply cleanup_no_handlers, Ho.
Qed.

Lemma deliver_to_fires (p : PromiseState) (type : string) (st : SeekState)
    (l : Listener) :
  Waiting st -> fires type l = true -> outcome type = Some p ->
  Settled p (deliver_to type st l).
Proof.
  intros Hst Hf Hout. unfold deliver_to.
  assert (Hpre : forall st', st' = (if once l
                   then removeEventListener type (callback l) st else st) ->
                 promise st' = Pending /\ settle_calls st' = 0%nat
                 /\ own_types (listeners st') = true).
  { intros st' ->. destruct (once l).
    - apply Waiting_remove_own, Hst.
    - destruct Hst as [Hp [Hc [_ [_ Ho]]]]. repeat split; assumption. }
  specialize (Hpre _ eq_refl). destruct Hpre as [Hp [Hc Ho]].
  destruct (settle_after_cleanup _ Hp Hc Ho) as [Hres Hrej].
  destruct Hst as [_ [_ [Hs [He _]]]]. unfold registered in Hs, He.
  unfold fires in Hf. unfold outcome in Hout.
  destruct (callback l) as [| | id]; cbn [run_callback].
  - rewrite Hf in Hout. injection Hout as <-.
    apply String.eqb_eq in Hf. subst type. rewrite Hs. exact Hres.
  - apply String.eqb_eq in Hf. subst type. cbn in Hout.
    injection Hout as <-. rewrite He. exact Hrej.
  - discriminate Hf.
Qed.

Lemma dispatch_fold_settled (p : PromiseState) (type : string)
    (ls : list Listener) (st : SeekState) :
  Settled p st -> Settled p (fold_left (deliver_to type) ls st).
Proof.
  revert st. induction ls as [| l ls IH]; intros st Hst; cbn [fold_left].
  - exact Hst.
  - apply IH, deliver_to_settled, Hst.
Qed.

Lemma dispatch_fold_waiting (type : string) (ls : list Listener)
    (st : SeekState) :
  Waiting st ->
  (existsb (fires type) ls = false ->
   Waiting (fold_left (deliver_to type) ls st))
  /\ (existsb (fires type) ls = true -> forall p, outcome type = Some p ->
      Settled p (fold_left (deliver_to type) ls st)).
Proof.
  revert st. induction ls as [| l ls IH]; intros st Hst;
    cbn [fold_left existsb].
  - split; [intros _; exact Hst | discriminate].
  - destruct (fires type l) eqn:Hf; cbn [orb].
    + split; [discriminate |]. intros _ p Hout.
      apply dispatch_fold_settled, deliver_to_fires; assumption.
    + apply IH, deliver_to_quiet; assumption.
Qed.

Lemma outcome_cases (type : string) :
  (type = "seeked" /\ outcome type = Some Fulfilled)
  \/ (type = "error" /\ outcome type = Some (Rejected "seek failed"))
  \/ (type <> "seeked" /\ type <> "error" /\ outcome type = None).
Proof.
  unfold outcome.
  destruct (String.eqb_spec type "seeked") as [-> | Hs]; [now left |].
  destruct (String.eqb_spec type "error") as [-> | He]; [right; now left |].
  right; right. repeat split; assumption.
Qed.

Lemma snapshot_fires (type : string) (cb : Callback) (st : SeekState) :
  registered type cb st = true ->
  fires type (mkListener type cb true) = true ->
  existsb (fires type)
    (filter (fun l => String.eqb (event_type l) type) (listeners st)) = true.
Proof.
  unfold registered. intros Hreg Hf.
  apply existsb_exists in Hreg. destruct Hreg as [l [Hl Hsame]].
  apply same_listener_spec in Hsame. destruct Hsame as [Ht Hc].
  apply existsb_exists. exists l. split.
  - apply filter_In. split; [exact Hl |]. rewrite Ht. apply String.eqb_refl.
  - unfold fires in *. rewrite Hc. exact Hf.
Qed.

Lemma snapshot_quiet (type : string) (ls : list Listener) :
  outcome type = None -> existsb (fires type) ls = false.
Proof.
  intros Hout. apply not_true_iff_false. intros H.
  apply existsb_exists in H. destruct H as [l [_ Hf]].
  unfold fires in Hf. unfold outcome in Hout.
  destruct (callback l); try discriminate Hf.
  - rewrite Hf in Hout. discriminate Hout.
  - rewrite Hf in Hout. destruct (String.eqb type "seeked"); discriminate Hout.
Qed.

Lemma dispatchEvent_waiting (type : string) (st : SeekState) :
  Waiting st ->
  match outcome type with
  | Some p => Settled p (dispatchEvent type st)
  | None => Waiting (dispatchEvent type st)
  end.
Proof.
  intros Hst. unfold dispatchEvent.
  destruct (dispatch_fold_waiting type
              (filter (fun l => String.eqb (event_type l) type) (listeners st))
              st Hst) as [Hquiet Hfire].
  pose proof Hst as [_ [_ [Hs [He _]]]].
  destruct (outcome_cases type) as [[-> Ho] | [[-> Ho] | [_ [_ Ho]]]];
    rewrite Ho.
  - apply Hfire; [| exact Ho]. apply (snapshot_fires _ _ _ Hs). reflexivity.
  - apply Hfire; [| exact Ho]. apply (snapshot_fires _ _ _ He). reflexivity.
  - apply Hquiet, snapshot_quiet, Ho.
Qed.

Lemma deliver_settled (p : PromiseState) (events : list string)
    (st : SeekState) :
  Settled p st -> Settled p (deliver events st).
Proof.
  revert st. induction events as [| type rest IH]; intros st Hst;
    cbn [deliver fold_left].
  - exact Hst.
  - apply IH. unfold dispatchEvent. apply dispatch_fold_settled, Hst.
Qed.

Lemma deliver_waiting (events : list string) (st : SeekState) :
  Waiting st ->
  match first_outcome events with
  | Some p => Settled p (deliver events st)
  | None => Waiting (deliver events st)
  end.
Proof.
  revert st. induction events as [| type rest IH]; intros st Hst;
    cbn [first_outcome].
  - exact Hst.
  - pose proof (dispatchEvent_waiting type st Hst) as Hd.
    change (deliver (type :: rest) st)
      with (deliver rest (dispatchEvent type st)).
    destruct (outcome type) as [p |].
    + apply deliver_settled, Hd.
    + apply IH, Hd.
Qed.

Lemma existsb_app_last (f : Listener -> bool) (ls : list Listener)
    (l : Listener) :
  existsb f (ls ++ [l])%list = existsb f ls || f l.
Proof. rewrite existsb_app. cbn. now rewrite orb_false_r. Qed.

Lemma seekVideo_waiting (time time0 : number) (others : list Listener) :
  no_handlers others = true ->
  Waiting (seekVideo time (fresh_video time0 others))
  /\ currentTime (seekVideo time (fresh_video time0 others)) = time
  /\ listeners (seekVideo time (fresh_video time0 others))
     = (others ++ [mkListener "seeked" handleSeeked true;
                   mkListener "error" handleError true])%list.
Proof.
  intros Hno. unfold seekVideo, fresh_video, addEventListener.
  cbn [listeners currentTime promise settle_calls].
  rewrite (no_handlers_unregistered "seeked" handleSeeked _ Hno)
    by discriminate.
  cbn [listeners currentTime promise settle_calls].
  rewrite existsb_app_last,
    (no_handlers_unregistered "error" handleError _ Hno) by discriminate.
  cbn [listeners currentTime promise settle_calls orb same_listener
       event_type callback String.eqb Ascii.eqb Bool.eqb andb].
  assert (Hl : ((others ++ [mkListener "seeked" handleSeeked true])
                ++ [mkListener "error" handleError true])%list
               = (others ++ [mkListener "seeked" handleSeeked true;
                             mkListener "error" handleError true])%list)
    by now rewrite <- app_assoc.
  rewrite Hl. split; [| split; reflexivity].
  unfold Waiting, registered, own_types.
  cbn [listeners currentTime promise settle_calls].
  rewrite !existsb_app, forallb_app.
  repeat split.
  - cbn. now rewrite orb_true_r.
  - cbn. now rewrite orb_true_r.
  - apply andb_true_iff. split; [| reflexivity].
    unfold no_handlers in Hno. rewrite forallb_forall in *.
    intros l Hl'. specialize (Hno l Hl'). destruct (callback l);
      try discriminate. reflexivity.
Qed.

Lemma first_outcome_app (before after : list string) (type : string) :
  first_outcome before = None ->
  first_outcome (before ++ type :: after)
  = match outcome type with
    | Some p => Some p
    | None => first_outcome after
    end.
Proof.
  induction before as [| e before IH]; cbn [first_outcome app];
    [reflexivity |].
  destruct (outcome e); [discriminate | exact IH].
Qed.

Lemma Settled_facts (p : PromiseState) (st : SeekState) :
  Settled p st ->
  promise st = p /\ settle_calls st = 1%nat
  /\ registered "seeked" handleSeeked st = false
  /\ registered "error" handleError st = false.
Proof.
  intros [Hp [Hc Hn]]. unfold registered. repeat split; try assumption;
    apply no_handlers_unregistered; (assumption || discriminate).
Qed.

(** C8. [seekVideo] sets the playback position, registers its two handlers
    and leaves the promise pending.  The promise stays pending, with both
    handlers in place, while neither "seeked" nor "error" has been
    delivered.  The first of the two signals settles it (fulfilled on
    "seeked", rejected with "seek failed" on "error") and removes both
    handlers; whatever is delivered afterwards, the promise keeps that
    state and [resolve] or [reject] has been called exactly once. *)
Theorem seekVideo_settles_once (time time0 : number) (others : list Listener)
    (before after : list string) :
  no_handlers others = true ->
  first_outcome before = None ->
  let st0 := seekVideo time (fresh_video time0 others) in
  (currentTime st0 = time /\ promise st0 = Pending
   /\ settle_calls st0 = 0%nat
   /\ registered "seeked" handleSeeked st0 = true
   /\ registered "error" handleError st0 = true)
  /\ (promise (deliver before st0) = Pending
      /\ settle_calls (deliver before st0) = 0%nat
      /\ registered "seeked" handleSeeked (deliver before st0) = true
      /\ registered "error" handleError (deliver before st0) = true)
  /\ (promise (deliver (before ++ "seeked" :: after) st0) = Fulfilled
      /\ settle_calls (deliver (before ++ "seeked" :: after) st0) = 1%nat
      /\ registered "seeked" handleSeeked
           (deliver (before ++ "seeked" :: after) st0) = false
      /\ registered "error" handleError
           (deliver (before ++ "seeked" :: after) st0) = false)
  /\ (promise (deliver (before ++ "error" :: after) st0)
      = Rejected "seek failed"
      /\ settle_calls (deliver (before ++ "error" :: after) st0) = 1%nat
      /\ registered "seeked" handleSeeked
           (deliver (before ++ "error" :: after) st0) = false
      /\ registered "error" handleError
           (deliver (before ++ "error" :: after) st0) = false).
Proof.
  intros Hno Hbefore st0.
  destruct (seekVideo_waiting time time0 others Hno) as [Hw [Ht _]].
  fold st0 in Hw, Ht.
  split; [| split; [| split]].
  - destruct Hw as [Hp [Hc [Hs [He _]]]]. repeat split; assumption.
  - pose proof (deliver_waiting before st0 Hw) as H.
    rewrite Hbefore in H. destruct H as [Hp [Hc [Hs [He _]]]].
    repeat split; assumption.
  - pose proof (deliver_waiting (before ++ "seeked" :: after) st0 Hw) as H.
    rewrite (first_outcome_app _ _ _ Hbefore) in H.
    apply Settled_facts, H.
  - pose proof (deliver_waiting (before ++ "error" :: after) st0 Hw) as H.
    rewrite (first_outcome_app _ _ _ Hbefore) in H.
    apply Settled_facts, H.
Qed.

Lemma seekVideo_settles_once_witness :
  promise
    (deliver (["timeupdate"] ++ "seeked" :: ["error"; "seeked"])
       (seekVideo (Fin (5 # 2))
          (fresh_video (of_Z 0)
             [mkListener "loadedmetadata" (external 0) false;
              mkListener "seeked" (external 1) true])))
  = Fulfilled
  /\ settle_calls
       (deliver (["timeupdate"] ++ "seeked" :: ["error"; "seeked"])
          (seekVideo (Fin (5 # 2))
             (fresh_video (of_Z 0)
                [mkListener "loadedmetadata" (external 0) false;
                 mkListener "seeked" (external 1) true])))
     = 1%nat.
Proof.
  destruct (seekVideo_settles_once (Fin (5 # 2)) (of_Z 0)
              [mkListener "loadedmetadata" (external 0) false;
               mkListener "seeked" (external 1) true]
              ["timeupdate"] ["error"; "seeked"])
    as [_ [_ [[Hp [Hc _]] _]]]; [reflexivity | reflexivity |].
  split; [exact Hp | exact Hc].
Defined.

(** * Further properties of the code *)

(** ** Capture points: edge cases and spacing *)

(** X1. [buildCapturePoints] returns no point for a duration that is 0 or
    NaN, and for every other duration, finite or not, exactly
    max(0, sceneCount) points. *)
Theorem buildCapturePoints_length (duration : number) (n : Z) :
  List.length (buildCapturePoints duration n)
  = if truthy duration then Z.to_nat n else 0%nat.
Proof.
  unfold buildCapturePoints. destruct (truthy duration); cbn [negb orb].
  - destruct (Z.eqb_spec n 0) as [-> | Hn]; [reflexivity |].
    rewrite capture_loop_map. cbn [app].
    now rewrite length_map, Zseq_length.
  - reflexivity.
Qed.

Lemma map_const_Zseq (g : Z -> number) (v : number) (i : Z) (k : nat) :
  (forall j, (i <= j)%Z -> g j = v) -> map g (Zseq i k) = repeat v k.
Proof.
  revert i. induction k as [| k IH]; intros i H; cbn; [reflexivity |].
  rewrite (H i) by lia. f_equal. apply IH. intros j Hj. apply H. lia.
Qed.

Lemma infinite_duration_points_aux (g w h : Z) :
  0 < inject_Z g + inject_Z 1 ->
  sceneCount (Some (mkVideoMeta PInf w h)) (of_Z g) = of_Z 10.
Proof.
  intros Hpos.
  unfold sceneCount, maxSceneSamples. cbn [duration ndiv nadd of_Z].
  change (Qle_bool 0 (inject_Z 20)) with true. cbn [signed_inf nmul].
  rewrite Qeq_bool_false by lra.
  replace (Qltb 0 (inject_Z g + inject_Z 1)) with true
    by (symmetry; apply Qltb_lt; exact Hpos).
  reflexivity.
Qed.

(** X2. For an infinite duration (a stream, or a recording whose length
    the element does not know) the scene count is 10 at every granularity
    g >= 0 and each of the capture points is Infinity. *)
Theorem infinite_duration_points (g w h n : Z) :
  (0 <= g)%Z -> (1 <= n)%Z ->
  sceneCount (Some (mkVideoMeta PInf w h)) (of_Z g) = of_Z 10
  /\ buildCapturePoints PInf n = repeat PInf (Z.to_nat n).
Proof.
  intros Hg Hn. split.
  - apply infinite_duration_points_aux.
    rewrite <- inject_Z_plus, <- (Zlt_Qlt 0). lia.
  - unfold buildCapturePoints. cbn [truthy negb orb].
    destruct (Z.eqb_spec n 0) as [-> | _]; [lia |].
    rewrite capture_loop_map. cbn [app]. apply map_const_Zseq.
    intros j Hj. cbn [nsub nadd nneg Math_max nlt ndiv of_Z].
    assert (HN : 0 < inject_Z (n + 1)) by (rewrite <- (Zlt_Qlt 0); lia).
    replace (Qle_bool 0 (inject_Z (n + 1))) with true
      by (symmetry; apply Qle_bool_iff; lra).
    cbn [signed_inf nmul].
    assert (Hj' : 0 < inject_Z j) by (rewrite <- (Zlt_Qlt 0); lia).
    unfold capture_point. cbn [nsub nadd nneg nmul of_Z].
    rewrite Qeq_bool_false by lra.
    replace (Qltb 0 (inject_Z j)) with true
      by (symmetry; apply Qltb_lt; exact Hj').
    reflexivity.
Qed.

Lemma infinite_duration_points_witness :
  sceneCount (Some (mkVideoMeta PInf 640 480)) (of_Z 4) = of_Z 10
  /\ buildCapturePoints PInf 10 = repeat PInf (Z.to_nat 10).
Proof. apply (infinite_duration_points 4 640 480 10); lia. Defined.

Lemma step_above_tenth (d : Q) (n : Z) :
  (1 <= n)%Z -> inject_Z (n + 1) < 10 * d -> (1 # 10) < d / inject_Z (n + 1).
Proof.
  intros Hn Hbig. apply Qlt_shift_div_l; [rewrite <- (Zlt_Qlt 0); lia | lra].
Qed.

Lemma clamp_point_unclamped (d : Q) (n j : Z) :
  0 < d -> (1 <= n)%Z -> inject_Z (n + 1) < 10 * d -> (j <= n)%Z ->
  clamp_point d (d / inject_Z (n + 1)) j = d / inject_Z (n + 1) * inject_Z j.
Proof.
  intros Hd Hn Hbig Hj. unfold clamp_point.
  replace (Qltb (d / inject_Z (n + 1) * inject_Z j) (d + - (1 # 10)))
    with true; [reflexivity |].
  symmetry. apply Qltb_lt.
  pose proof (step_above_tenth d n Hn Hbig) as Hs.
  destruct (step_positive d n Hd Hn) as [_ [Htot _]].
  set (s := d / inject_Z (n + 1)) in *.
  assert (Hle : s * inject_Z j <= s * inject_Z n)
    by (apply step_scale; [lra | exact Hj]).
  rewrite inject_Z_plus in Htot. change (inject_Z 1) with 1 in Htot.
  assert (Hn' : s * inject_Z n == d - s) by lra.
  lra.
Qed.

(** X3. When d > (n + 1) / 10 the clamp at d - 0.1 never binds: the i-th
    capture point is exactly i * d / (n + 1), so the points cut the clip
    into n + 1 equal parts. *)
Theorem capture_points_evenly_spaced (d : Q) (n : Z) :
  0 < d -> (1 <= n)%Z -> inject_Z (n + 1) < 10 * d ->
  buildCapturePoints (Fin d) n
  = map (fun i => Fin (d / inject_Z (n + 1) * inject_Z i))
        (Zseq 1 (Z.to_nat n)).
Proof.
  intros Hd Hn Hbig.
  rewrite buildCapturePoints_finite by lra.
  rewrite points_over_span_finite by assumption.
  apply map_ext_in. intros j Hj. apply Zseq_In in Hj.
  f_equal. apply clamp_point_unclamped; try assumption. lia.
Qed.

Lemma capture_points_evenly_spaced_witness :
  buildCapturePoints (Fin 40) 3
  = map (fun i => Fin (40 / inject_Z (3 + 1) * inject_Z i))
        (Zseq 1 (Z.to_nat 3)).
Proof.
  apply (capture_points_evenly_spaced 40 3); [reflexivity | lia | reflexivity].
Defined.

Lemma count_of_of_Z (k : Z) : count_of (of_Z k) = k.
Proof. apply Qfloor_Z. Qed.

(** X4. For every clip longer than 1.1 s and every granularity g >= 0 the
    page asks for n capture points, n being its scene count (3 to 10); they
    are the points i * d / (n + 1), strictly increasing and all inside
    [0, d). *)
Theorem page_capture_points (d : Q) (g w h : Z) :
  11 # 10 < d -> (0 <= g)%Z ->
  let n := count_of (sceneCount (Some (mkVideoMeta (Fin d) w h)) (of_Z g)) in
  let points := buildCapturePoints (Fin d) n in
  (3 <= n <= 10)%Z
  /\ Z.of_nat (List.length points) = n
  /\ points = map (fun i => Fin (d / inject_Z (n + 1) * inject_Z i))
                  (Zseq 1 (Z.to_nat n))
  /\ strictly_increasing points = true
  /\ within (of_Z 0) (Fin d) points = true.
Proof.
  intros Hd Hg n points. subst points n.
  rewrite sceneCount_finite, count_of_of_Z.
  pose proof (scene_count_Z_range d g) as Hn.
  set (n := scene_count_Z d g) in *.
  assert (Hd0 : 0 < d) by lra.
  assert (Hbig : inject_Z (n + 1) < 10 * d).
  { apply Qle_lt_trans with (inject_Z 11); [rewrite <- Zle_Qle; lia |].
    change (inject_Z 11) with 11. lra. }
  split; [exact Hn |].
  split; [rewrite buildCapturePoints_length; cbn [truthy];
          rewrite Qeq_bool_false by lra; cbn [negb]; lia |].
  split; [apply capture_points_evenly_spaced; (assumption || lia) |].
  rewrite buildCapturePoints_finite by lra.
  rewrite points_over_span_finite by lia.
  unfold strictly_increasing, within.
  rewrite chain_map_Zseq, forallb_map_Zseq. split.
  - intros j Hj1 Hj2. apply Qltb_lt, clamp_point_strict; try lia; try lra.
  - intros j Hj. rewrite andb_true_iff. split.
    + apply Qle_bool_iff, clamp_point_nonneg; try lia; lra.
    + apply Qltb_lt, clamp_point_below; (lia || lra).
Qed.

Lemma page_capture_points_witness :
  let n := count_of (sceneCount (Some (mkVideoMeta (Fin 40) 640 480)) (of_Z 4)) in
  let points := buildCapturePoints (Fin 40) n in
  (3 <= n <= 10)%Z
  /\ Z.of_nat (List.length points) = n
  /\ points = map (fun i => Fin (40 / inject_Z (n + 1) * inject_Z i))
                  (Zseq 1 (Z.to_nat n))
  /\ strictly_increasing points = true
  /\ within (of_Z 0) (Fin 40) points = true.
Proof.
  apply (page_capture_points 40 4 640 480); [reflexivity | lia].
Defined.

(** ** Scene count: thresholds and the ready flag *)

Lemma Qfloor_ge (y : Q) (a : Z) : (a <= Qfloor y)%Z <-> inject_Z a <= y.
Proof.
  split; intros H.
  - apply Qle_trans with (inject_Z (Qfloor y)); [| apply Qfloor_le].
    rewrite <- Zle_Qle. exact H.
  - rewrite <- (Qfloor_Z a). apply Qfloor_resp_le, H.
Qed.

Lemma Qfloor_le_iff (y : Q) (a : Z) :
  (Qfloor y <= a)%Z <-> y < inject_Z (a + 1).
Proof.
  split; intros H.
  - apply Qlt_le_trans with (inject_Z (Qfloor y + 1)); [apply Qlt_floor |].
    rewrite <- Zle_Qle. lia.
  - destruct (Z.le_gt_cases (Qfloor y) a) as [Hle | Hgt]; [exact Hle |].
    assert (Hge : (a + 1 <= Qfloor y)%Z) by lia.
    apply Qfloor_ge in Hge. lra.
Qed.

Lemma of_Z_inj (a b : Z) : of_Z a = of_Z b <-> a = b.
Proof.
  split; [| now intros ->]. unfold of_Z, inject_Z. intros H.
  now injection H.
Qed.

(** In exact arithmetic the two ends of the range have sharp thresholds. *)
Lemma scene_count_Z_thresholds (d : Q) (g : Z) :
  (scene_count_Z d g = 10%Z <-> 190 <= d * inject_Z (g + 1))
  /\ (scene_count_Z d g = 3%Z <-> d * inject_Z (g + 1) < 70).
Proof.
  unfold scene_count_Z.
  set (x := d / 20 * inject_Z (g + 1)).
  assert (Hx : x * 20 == d * inject_Z (g + 1)) by (unfold x; field).
  rewrite <- Hx. split; split.
  - intros H. assert (H' : (10 <= Qfloor (x + (1 # 2)))%Z) by lia.
    apply Qfloor_ge in H'. change (inject_Z 10) with 10 in H'. lra.
  - intros H. assert (H' : (10 <= Qfloor (x + (1 # 2)))%Z).
    { apply Qfloor_ge. change (inject_Z 10) with 10. lra. }
    lia.
  - intros H. assert (H' : (Qfloor (x + (1 # 2)) <= 3)%Z) by lia.
    apply Qfloor_le_iff in H'. change (inject_Z (3 + 1)) with 4 in H'. lra.
  - intros H. assert (H' : (Qfloor (x + (1 # 2)) <= 3)%Z).
    { apply Qfloor_le_iff. change (inject_Z (3 + 1)) with 4. lra. }
    lia.
Qed.

(** X5. The two ends of the range.  With x = (d/20)*(g+1) for a finite
    duration d and an integer granularity g, the scene count is 10 when
    x >= 9.5 + 1e-9 and only when x >= 9.5 - 1e-9, and it is 3 when
    x <= 3.5 - 1e-9 and only when x <= 3.5 + 1e-9.  A clip of 95 s or more
    gives 10 scenes at every granularity g >= 1, and a clip under 8.75 s
    gives 3 at every granularity of the slider. *)
Theorem sceneCount_thresholds (d : Q) (g w h : Z) :
  let count := sceneCount (Some (mkVideoMeta (Fin d) w h)) (of_Z g) in
  let x := d / 20 * inject_Z (g + 1) in
  ((19 # 2) + rounding_margin <= x -> count = of_Z 10)
  /\ (count = of_Z 10 -> (19 # 2) - rounding_margin <= x)
  /\ (x <= (7 # 2) - rounding_margin -> count = of_Z 3)
  /\ (count = of_Z 3 -> x <= (7 # 2) + rounding_margin)
  /\ ((1 <= g)%Z -> 95 <= d -> count = of_Z 10)
  /\ ((0 <= g <= 7)%Z -> d < 35 # 4 -> count = of_Z 3).
Proof.
  intros count x. subst count.
  rewrite sceneCount_finite, !of_Z_inj.
  destruct (scene_count_Z_thresholds d g) as [H10 H3].
  assert (Hx : x * 20 == d * inject_Z (g + 1)) by (unfold x; field).
  unfold rounding_margin.
  split; [intros H; apply H10; lra |].
  split; [intros H; apply H10 in H; lra |].
  split; [intros H; apply H3; lra |].
  split; [intros H; apply H3 in H; lra |].
  split.
  - intros Hg Hd. apply H10.
    assert (H2 : 2 <= inject_Z (g + 1))
      by (change 2 with (inject_Z 2); rewrite <- Zle_Qle; lia).
    apply Qle_trans with (95 * 2); [discriminate |].
    apply Qle_trans with (d * 2).
    + apply Qmult_le_compat_r; [exact Hd | discriminate].
    + rewrite !(Qmult_comm d). apply Qmult_le_compat_r; [exact H2 | lra].
  - intros Hg Hd. apply H3.
    assert (H0 : 0 <= inject_Z (g + 1))
      by (rewrite <- (Zle_Qle 0); lia).
    assert (H8 : inject_Z (g + 1) <= 8)
      by (change 8 with (inject_Z 8); rewrite <- Zle_Qle; lia).
    destruct (Qlt_le_dec d 0) as [Hneg | Hpos].
    + apply Qle_lt_trans with 0; [| reflexivity].
      setoid_replace 0 with (0 * inject_Z (g + 1)) by ring.
      apply Qmult_le_compat_r; [lra | exact H0].
    + apply Qle_lt_trans with (d * 8).
      * rewrite !(Qmult_comm d). apply Qmult_le_compat_r; assumption.
      * lra.
Qed.

Lemma sceneCount_thresholds_witness :
  sceneCount (Some (mkVideoMeta (Fin 120) 640 480)) (of_Z 1) = of_Z 10
  /\ sceneCount (Some (mkVideoMeta (Fin 30) 640 480)) (of_Z 1) = of_Z 3.
Proof.
  destruct (sceneCount_thresholds 120 1 640 480)
    as [_ [_ [_ [_ [Hlong _]]]]].
  destruct (sceneCount_thresholds 30 1 640 480) as [_ [_ [Hlow _]]].
  split.
  - apply Hlong; [lia | unfold Qle; simpl; lia].
  - apply Hlow. unfold rounding_margin, Qle; simpl; lia.
Defined.

(** X6. Whenever metadata is stored with a truthy duration (any number but
    0 and NaN, infinite ones included) and the granularity is an integer
    g >= 0, the scene count is an integer from 3 to 10, hence positive. *)
Theorem sceneCount_truthy_range (meta : VideoMeta) (g : Z) :
  truthy (duration meta) = true -> (0 <= g)%Z ->
  exists k, sceneCount (Some meta) (of_Z g) = of_Z k /\ (3 <= k <= 10)%Z
            /\ ngt (sceneCount (Some meta) (of_Z g)) (of_Z 0) = true.
Proof.
  intros Ht Hg. destruct meta as [dur w h]. cbn [duration] in Ht.
  assert (Hpos : 0 < inject_Z g + inject_Z 1).
  { rewrite <- inject_Z_plus, <- (Zlt_Qlt 0). lia. }
  assert (Hk : exists k, sceneCount (Some (mkVideoMeta dur w h)) (of_Z g)
                         = of_Z k /\ (3 <= k <= 10)%Z).
  { destruct dur as [d | | |].
    - exists (scene_count_Z d g). split; [apply sceneCount_finite |].
      apply scene_count_Z_range.
    - exists 10%Z. split; [| lia].
      apply (infinite_duration_points_aux g w h Hpos).
    - exists 3%Z. split; [| lia].
      unfold sceneCount, maxSceneSamples. cbn [duration ndiv nadd of_Z].
      change (Qltb (inject_Z 20) 0) with false. cbn [signed_inf nmul].
      rewrite Qeq_bool_false by lra.
      replace (Qltb (inject_Z g + inject_Z 1) 0) with false
        by (symmetry; apply Qltb_ge; lra).
      reflexivity.
    - discriminate Ht. }
  destruct Hk as [k [E Hk]]. exists k. repeat split; try assumption; try lia.
  rewrite E. cbn. apply Qltb_lt. rewrite <- (Zlt_Qlt 0). lia.
Qed.

Lemma sceneCount_truthy_range_witness :
  exists k, sceneCount (Some (mkVideoMeta NInf 640 480)) (of_Z 4) = of_Z k
            /\ (3 <= k <= 10)%Z
            /\ ngt (sceneCount (Some (mkVideoMeta NInf 640 480)) (of_Z 4))
                   (of_Z 0) = true.
Proof.
  apply (sceneCount_truthy_range (mkVideoMeta NInf 640 480) 4);
    [reflexivity | lia].
Defined.

(** ** The page as a state machine *)

Lemma handleVideoLoaded_truthy (video_duration : number) (w h : Z)
    (previous : option VideoMeta) :
  match previous with
  | Some meta => truthy (duration meta) = true
  | None => True
  end ->
  match handleVideoLoaded video_duration w h previous with
  | Some meta => truthy (duration meta) = true
  | None => True
  end.
Proof.
  intros Hprev. unfold handleVideoLoaded.
  destruct (truthy video_duration) eqn:E; [exact E | exact Hprev].
Qed.

Lemma handleGeneratePrompts_keeps (refs_ready : bool)
    (capture : number -> option ImageData) (w h : Z) (cfg : Config)
    (st : PageState) :
  videoSource (handleGeneratePrompts refs_ready capture w h cfg st)
  = videoSource st
  /\ videoMeta (handleGeneratePrompts refs_ready capture w h cfg st)
     = videoMeta st
  /\ pulse (handleGeneratePrompts refs_ready capture w h cfg st) = pulse st.
Proof.
  unfold handleGeneratePrompts.
  destruct (videoSource st) eqn:Es; destruct (videoMeta st) as [meta |] eqn:Em;
    cbn; try (rewrite Es, Em; repeat split; reflexivity).
  destruct (negb refs_ready); cbn; [rewrite Es, Em; repeat split; reflexivity |].
  destruct (capture_scenes _ _ _ _ _ _ _); cbn; repeat split; reflexivity.
Qed.

Lemma handleFileChange_keeps_meta (file : option File) (objectUrl : string)
    (st : PageState) :
  videoMeta (handleFileChange file objectUrl st) = videoMeta st.
Proof.
  unfold handleFileChange. destruct file as [f |]; [| reflexivity].
  destruct (negb (String.prefix "video/" (file_type f))); reflexivity.
Qed.

Lemma page_step_meta_ok (st : PageState) (ev : PageEvent) :
  meta_ok st = true -> meta_ok (page_step st ev) = true.
Proof.
  unfold meta_ok. intros Hst.
  destruct ev as [file objectUrl | d w h | ready capture w h cfg |];
    cbn [page_step].
  - rewrite handleFileChange_keeps_meta. exact Hst.
  - cbn [onLoadedMetadata videoMeta].
    pose proof (handleVideoLoaded_truthy d w h (videoMeta st)) as H.
    destruct (videoMeta st) as [meta |];
      destruct (handleVideoLoaded d w h _); try reflexivity;
      apply H; (exact Hst || exact I).
  - destruct (handleGeneratePrompts_keeps ready capture w h cfg st)
      as [_ [-> _]]. exact Hst.
  - exact Hst.
Qed.

Lemma reachable_meta_ok (events : list PageEvent) (st : PageState) :
  meta_ok st = true -> meta_ok (fold_left page_step events st) = true.
Proof.
  revert st. induction events as [| ev events IH]; intros st Hst;
    cbn [fold_left]; [exact Hst |].
  apply IH, page_step_meta_ok, Hst.
Qed.

(** X7. In every state the page reaches from its first render, stored
    metadata has a truthy duration; so, with an integer granularity
    g >= 0, the ready flag [hasVideoReady] holds exactly when a video
    source and metadata are both present. *)
Theorem ready_flag_reachable (events : list PageEvent) (cfg : Config) (g : Z) :
  granularity cfg = of_Z g -> (0 <= g)%Z ->
  let st := fold_left page_step events initial_page in
  meta_ok st = true
  /\ hasVideoReady st cfg
     = is_some (videoSource st) && is_some (videoMeta st).
Proof.
  intros Hcfg Hg st.
  assert (Hok : meta_ok st = true) by (apply reachable_meta_ok; reflexivity).
  split; [exact Hok |]. unfold hasVideoReady. rewrite Hcfg.
  unfold meta_ok in Hok. destruct (videoMeta st) as [meta |].
  - destruct (sceneCount_truthy_range meta g Hok Hg) as [k [_ [_ Hpos]]].
    rewrite Hpos. now rewrite andb_true_r.
  - cbn [is_some]. now rewrite !andb_false_r.
Qed.

Lemma ready_flag_reachable_witness :
  let cfg := mkConfig (of_Z 4) "documentary" "narrative prompt"
               "hyper-detailed" ["visuals"] EmptyString EmptyString
               EmptyString in
  let st :=
    fold_left page_step
      [FileChosen (Some (mkFile "video/mp4")) "blob:1";
       MetadataLoaded (Fin 40) 640 480]
      initial_page in
  meta_ok st = true
  /\ hasVideoReady st cfg
     = is_some (videoSource st) && is_some (videoMeta st).
Proof.
  apply (ready_flag_reachable
           [FileChosen (Some (mkFile "video/mp4")) "blob:1";
            MetadataLoaded (Fin 40) 640 480]
           (mkConfig (of_Z 4) "documentary" "narrative prompt"
              "hyper-detailed" ["visuals"] EmptyString EmptyString
              EmptyString) 4); [reflexivity | lia].
Defined.

(** X8. Choosing a file: without a file nothing changes; a file that is not
    a video changes only the status message; a video file replaces the
    source and clears the results but keeps the stored metadata, and a
    following metadata event with a zero or NaN duration keeps it too, so
    the scene count is still the one of the previous clip. *)
Theorem file_choice_keeps_metadata (st : PageState) (f : File)
    (objectUrl : string) (d : number) (w h : Z) (g : number) :
  handleFileChange None objectUrl st = st
  /\ (String.prefix "video/" (file_type f) = false ->
      handleFileChange (Some f) objectUrl st
      = setStatus "Please choose a valid video file." st)
  /\ (String.prefix "video/" (file_type f) = true ->
      let st1 := handleFileChange (Some f) objectUrl st in
      videoSource st1 = Some (mkVideoSource objectUrl f)
      /\ videoMeta st1 = videoMeta st
      /\ scenePrompts st1 = [] /\ compiledPrompt st1 = EmptyString
      /\ status st1 = EmptyString /\ pulse st1 = (pulse st + 1)%Z
      /\ (truthy d = false ->
          videoMeta (onLoadedMetadata d w h st1) = videoMeta st
          /\ sceneCount (videoMeta (onLoadedMetadata d w h st1)) g
             = sceneCount (videoMeta st) g)).
Proof.
  split; [reflexivity |]. split.
  - intros Hp. unfold handleFileChange. rewrite Hp. reflexivity.
  - intros Hp. unfold handleFileChange. rewrite Hp. cbn.
    do 6 (split; [reflexivity |]).
    intros Hd. unfold handleVideoLoaded. rewrite Hd. split; reflexivity.
Qed.

Lemma file_choice_keeps_metadata_witness :
  let st := mkPageState (Some (mkVideoSource "blob:1" (mkFile "video/mp4")))
              (Some (mkVideoMeta (Fin 40) 640 480)) false "Prompt ready."
              [] "old prompt" 3 in
  let st1 := handleFileChange (Some (mkFile "video/webm")) "blob:2" st in
  videoMeta (onLoadedMetadata NaN 0 0 st1)
  = Some (mkVideoMeta (Fin 40) 640 480)
  /\ compiledPrompt st1 = EmptyString.
Proof.
  destruct (file_choice_keeps_metadata
              (mkPageState
                 (Some (mkVideoSource "blob:1" (mkFile "video/mp4")))
                 (Some (mkVideoMeta (Fin 40) 640 480)) false "Prompt ready."
                 [] "old prompt" 3)
              (mkFile "video/webm") "blob:2" NaN 0 0 (of_Z 4))
    as [_ [_ H]].
  destruct (H eq_refl) as [_ [_ [_ [Hc [_ [_ Hm]]]]]].
  destruct (Hm eq_refl) as [Hmeta _].
  split; [exact Hmeta | exact Hc].
Defined.

(** ** Focus areas *)

Lemma Set_has_In (s : list string) (id : string) :
  Set_has s id = true <-> In id s.
Proof.
  unfold Set_has. rewrite existsb_exists. split.
  - intros [x [Hx E]]. apply String.eqb_eq in E. now subst.
  - intros H. exists id. split; [exact H | apply String.eqb_refl].
Qed.

Lemma Set_delete_In (s : list string) (id x : string) :
  In x (Set_delete s id) <-> In x s /\ x <> id.
Proof.
  unfold Set_delete. rewrite filter_In, negb_true_iff.
  split; intros [H1 H2]; split; try assumption.
  - intros ->. rewrite String.eqb_refl in H2. discriminate H2.
  - apply String.eqb_neq. congruence.
Qed.

Lemma Set_delete_absent (s : list string) (id : string) :
  ~ In id s -> Set_delete s id = s.
Proof.
  unfold Set_delete. induction s as [| x s IH]; cbn; [reflexivity |].
  intros H. destruct (String.eqb_spec id x) as [-> | _]; cbn.
  - exfalso. apply H. now left.
  - f_equal. apply IH. intros Hin. apply H. now right.
Qed.

Lemma toggleFocus_In (id x : string) (prev : list string) :
  In x (toggleFocus id prev)
  <-> (x = id /\ ~ In id prev) \/ (x <> id /\ In x prev).
Proof.
  unfold toggleFocus, Set_add. destruct (Set_has prev id) eqn:E.
  - apply Set_has_In in E. rewrite Set_delete_In. split.
    + intros [H1 H2]. right. tauto.
    + intros [[-> H] | [H1 H2]]; [contradiction | tauto].
  - assert (Hn : ~ In id prev)
      by (rewrite <- Set_has_In, E; discriminate).
    rewrite in_app_iff. cbn [In]. split.
    + intros [H | [<- | []]].
      * right. split; [intros -> |]; tauto.
      * left. tauto.
    + intros [[-> _] | [_ H]]; tauto.
Qed.

(** X9. Toggling a focus area flips its membership, leaves every other
    area as it is, and keeps the selection free of duplicates. *)
Theorem toggleFocus_flips (id : string) (prev : list string) :
  NoDup prev ->
  NoDup (toggleFocus id prev)
  /\ Set_has (toggleFocus id prev) id = negb (Set_has prev id)
  /\ (forall x, x <> id ->
        Set_has (toggleFocus id prev) x = Set_has prev x).
Proof.
  intros Hnd. split; [| split].
  - unfold toggleFocus, Set_add, Set_delete.
    destruct (Set_has prev id) eqn:E.
    + apply NoDup_filter, Hnd.
    + apply NoDup_app; [exact Hnd | repeat constructor; intros [] |].
      intros x Hx [<- | []]. apply Set_has_In in Hx. congruence.
  - apply eq_true_iff_eq. rewrite Set_has_In, toggleFocus_In, negb_true_iff.
    rewrite <- not_true_iff_false, Set_has_In. tauto.
  - intros x Hx. apply eq_true_iff_eq.
    rewrite !Set_has_In, toggleFocus_In. tauto.
Qed.

Lemma toggleFocus_flips_witness :
  NoDup (toggleFocus "lighting" ["visuals"; "lighting"; "narrative"])
  /\ Set_has (toggleFocus "lighting" ["visuals"; "lighting"; "narrative"])
       "lighting"
     = negb (Set_has ["visuals"; "lighting"; "narrative"] "lighting")
  /\ (forall x, x <> "lighting" ->
        Set_has (toggleFocus "lighting" ["visuals"; "lighting"; "narrative"])
          x
        = Set_has ["visuals"; "lighting"; "narrative"] x).
Proof.
  apply (toggleFocus_flips "lighting" ["visuals"; "lighting"; "narrative"]).
  repeat constructor; cbn; intuition discriminate.
Defined.

(** X10. Toggling the same focus area twice restores the selection as a
    set, but not always its order: an area that was absent leaves the list
    exactly as it was, while an area that was selected ends up last, which
    is the order the prompt lines list the areas in. *)
Theorem toggleFocus_twice (id : string) (prev : list string) :
  toggleFocus id (toggleFocus id prev)
  = (if Set_has prev id then Set_delete prev id ++ [id] else prev)%list
  /\ (forall x, In x (toggleFocus id (toggleFocus id prev)) <-> In x prev).
Proof.
  split.
  - unfold toggleFocus at 2. unfold Set_add.
    destruct (Set_has prev id) eqn:E.
    + unfold toggleFocus, Set_add.
      assert (Hn : Set_has (Set_delete prev id) id = false).
      { apply not_true_iff_false. rewrite Set_has_In, Set_delete_In. tauto. }
      rewrite Hn. reflexivity.
    + assert (Hn : ~ In id prev)
        by (rewrite <- Set_has_In, E; discriminate).
      unfold toggleFocus.
      assert (Hh : Set_has (prev ++ [id]) id = true).
      { apply Set_has_In, in_app_iff. right. now left. }
      rewrite Hh. unfold Set_delete. rewrite filter_app. cbn.
      rewrite String.eqb_refl. cbn. rewrite app_nil_r.
      apply Set_delete_absent, Hn.
  - intros x. rewrite !toggleFocus_In.
    destruct (in_dec string_dec id prev) as [Hin | Hout];
      destruct (string_dec x id) as [-> | Hne]; tauto.
Qed.

(** ** Time formatting: what the digits say *)

Lemma Qfloor_minus_Z (x : Q) (k : Z) :
  Qfloor (x - inject_Z k) = (Qfloor x - k)%Z.
Proof.
  pose proof (Qfloor_le x) as Hlo. pose proof (Qlt_floor x) as Hhi.
  apply Qfloor_unique.
  - unfold Z.sub. rewrite inject_Z_plus, inject_Z_opp. lra.
  - replace (Qfloor x - k + 1)%Z with (Qfloor x + 1 + - k)%Z by lia.
    rewrite inject_Z_plus, inject_Z_opp. lra.
Qed.

(** In exact arithmetic the printed fields are the floors themselves. *)
Lemma formatTime_exact_fields (q : Q) :
  0 <= q ->
  let m := Qfloor (q / 60) in
  let s := Qfloor (Qrem q 60) in
  let c := (Qfloor ((q - inject_Z (Qfloor q)) * 1000) / 10)%Z in
  formatTime (Fin q) = pad m ++ ":" ++ two_digits s ++ "." ++ two_digits c
  /\ (0 <= m)%Z /\ (0 <= s < 60)%Z /\ (0 <= c < 100)%Z
  /\ (60 * m + s)%Z = Qfloor q
  /\ inject_Z (60 * m + s) + inject_Z c / 100 <= q
  /\ q < inject_Z (60 * m + s) + inject_Z (c + 1) / 100.
Proof.
  intros H0 m s c.
  assert (Hq60 : 0 <= q / 60) by (apply Qle_shift_div_l; [reflexivity | lra]).
  assert (Hm : (0 <= m)%Z).
  { unfold m. rewrite <- (Qfloor_Z 0). apply Qfloor_resp_le, Hq60. }
  assert (Hrem : Qrem q 60 == q - inject_Z (60 * m)).
  { unfold Qrem. rewrite Qtrunc_nonneg by exact Hq60. fold m.
    rewrite inject_Z_mult. change (inject_Z 60) with 60. ring. }
  assert (Hs_eq : s = (Qfloor q - 60 * m)%Z).
  { unfold s. rewrite (Qfloor_comp _ _ Hrem). apply Qfloor_minus_Z. }
  assert (Hs : (0 <= s < 60)%Z).
  { unfold s. rewrite (Qfloor_comp _ _ Hrem).
    pose proof (Qfloor_le (q / 60)) as Hlo.
    pose proof (Qlt_floor (q / 60)) as Hhi. fold m in Hlo, Hhi.
    rewrite inject_Z_plus in Hhi. change (inject_Z 1) with 1 in Hhi.
    assert (Hq : q == 60 * (q / 60)) by (field; discriminate).
    apply Qfloor_range; rewrite inject_Z_mult;
      change (inject_Z 0) with 0; change (inject_Z 60) with 60; lra. }
  pose proof (Qfloor_le q) as Hflo. pose proof (Qlt_floor q) as Hfhi.
  rewrite inject_Z_plus in Hfhi. change (inject_Z 1) with 1 in Hfhi.
  set (F := inject_Z (Qfloor q)) in *.
  set (ms := Qfloor ((q - F) * 1000)) in *.
  assert (Hms : (0 <= ms < 1000)%Z).
  { apply Qfloor_range; change (inject_Z 0) with 0;
      change (inject_Z 1000) with 1000; lra. }
  pose proof (Qfloor_le ((q - F) * 1000)) as Hmlo.
  pose proof (Qlt_floor ((q - F) * 1000)) as Hmhi. fold ms in Hmlo, Hmhi.
  assert (Hc : (0 <= c < 100)%Z).
  { unfold c. split; [apply Z.div_pos; lia | apply Z.div_lt_upper_bound; lia]. }
  assert (Hc10 : (10 * c <= ms /\ ms + 1 <= 10 * (c + 1))%Z).
  { unfold c. pose proof (Z.div_mod ms 10 ltac:(lia)).
    pose proof (Z.mod_pos_bound ms 10 ltac:(lia)). lia. }
  destruct Hc10 as [Hc1 Hc2].
  rewrite Zle_Qle, inject_Z_mult in Hc1. change (inject_Z 10) with 10 in Hc1.
  rewrite Zle_Qle, inject_Z_mult in Hc2. change (inject_Z 10) with 10 in Hc2.
  assert (HF : inject_Z (60 * m + s) = F)
    by (unfold F; f_equal; lia).
  split.
  { unfold formatTime. fold m s. fold F. fold ms. fold c.
    rewrite (proj1 (pad_two_digits s ltac:(lia))),
      (proj1 (pad_two_digits c Hc)). reflexivity. }
  split; [exact Hm |]. split; [exact Hs |]. split; [exact Hc |].
  split; [lia |]. rewrite HF.
  split.
  - apply Qle_trans with (F + inject_Z ms / 1000).
    + apply Qplus_le_r. apply Qle_shift_div_l; [reflexivity |].
      setoid_replace (inject_Z c / 100 * 1000) with (10 * inject_Z c)
        by field. exact Hc1.
    + assert (H : inject_Z ms / 1000 <= q - F)
        by (apply Qle_shift_div_r; [reflexivity | lra]).
      lra.
  - apply Qlt_le_trans with (F + inject_Z (ms + 1) / 1000).
    + assert (H : q - F < inject_Z (ms + 1) / 1000)
        by (apply Qlt_shift_div_l; [reflexivity | exact Hmhi]).
      lra.
    + apply Qplus_le_r. apply Qle_shift_div_r; [reflexivity |].
      setoid_replace (inject_Z (c + 1) / 100 * 1000)
        with (10 * inject_Z (c + 1)) by field. exact Hc2.
Qed.

(** X11. For every time from 0 s up to, but not including, 6000 s,
    [formatTime] prints two-digit fields m, s < 60 and c < 100 that give the
    time truncated, not rounded, to hundredths of a second:
    60 m + s + c/100 <= seconds < 60 m + s + (c + 1)/100, up to a tolerance
    of 1e-9 s on either side. *)
Theorem formatTime_truncates (q : Q) :
  0 <= q -> q < 6000 ->
  exists m s c : Z,
    formatTime (Fin q)
    = two_digits m ++ ":" ++ two_digits s ++ "." ++ two_digits c
    /\ (0 <= m < 100)%Z /\ (0 <= s < 60)%Z /\ (0 <= c < 100)%Z
    /\ inject_Z (60 * m + s) + inject_Z c / 100 - rounding_margin <= q
    /\ q < inject_Z (60 * m + s) + inject_Z (c + 1) / 100 + rounding_margin.
Proof.
  intros H0 H1.
  destruct (formatTime_exact_fields q H0) as [E [_ [Hs [Hc [_ [Hlo Hhi]]]]]].
  destruct (formatTime_fields q H0 H1) as [Hm _].
  exists (Qfloor (q / 60)), (Qfloor (Qrem q 60)),
    (Qfloor ((q - inject_Z (Qfloor q)) * 1000) / 10)%Z.
  rewrite E, (proj1 (pad_two_digits _ Hm)).
  split; [reflexivity |]. split; [exact Hm |]. split; [exact Hs |].
  split; [exact Hc |]. unfold rounding_margin. split; lra.
Qed.

Lemma formatTime_truncates_witness :
  exists m s c : Z,
    formatTime (Fin (12345 # 1000))
    = two_digits m ++ ":" ++ two_digits s ++ "." ++ two_digits c
    /\ (0 <= m < 100)%Z /\ (0 <= s < 60)%Z /\ (0 <= c < 100)%Z
    /\ inject_Z (60 * m + s) + inject_Z c / 100 - rounding_margin
       <= 12345 # 1000
    /\ 12345 # 1000
       < inject_Z (60 * m + s) + inject_Z (c + 1) / 100 + rounding_margin.
Proof.
  apply (formatTime_truncates (12345 # 1000));
    [unfold Qle; simpl; lia | reflexivity].
Defined.
(** ** The seek promise: listeners of other code, and seeks in sequence *)

Lemma filter_no_handlers (type : string) (cb : Callback) (ls : list Listener) :
  no_handlers ls = true -> (forall id, cb <> external id) ->
  filter (fun l => negb (same_listener type cb l)) ls = ls.
Proof.
  intros Hno Hcb. induction ls as [| l ls IH]; [reflexivity |].
  cbn [no_handlers forallb] in Hno. apply andb_true_iff in Hno.
  destruct Hno as [Hl Hls]. cbn [filter].
  assert (Hs : same_listener type cb l = false).
  { apply not_true_iff_false. intros H. apply same_listener_spec in H.
    destruct H as [_ Hc]. rewrite Hc in Hl. destruct cb; try discriminate.
    now apply (Hcb id). }
  rewrite Hs. cbn [negb]. f_equal. apply IH, Hls.
Qed.

Lemma deliver_to_persistent (type : string) (st : SeekState) (l : Listener) :
  (exists id, callback l = external id) -> once l = false ->
  deliver_to type st l = st.
Proof.
  intros [id Hc] Ho. unfold deliver_to. rewrite Hc, Ho. cbn [run_callback].
  destruct (existsb _ _); reflexivity.
Qed.

Lemma fold_persistent (type : string) (ls : list Listener) (st : SeekState) :
  no_handlers ls = true -> persistent ls = true ->
  fold_left (deliver_to type) ls st = st.
Proof.
  revert st. induction ls as [| l ls IH]; intros st Hno Hp; [reflexivity |].
  cbn [no_handlers persistent forallb] in Hno, Hp.
  apply andb_true_iff in Hno, Hp. destruct Hno as [Hl Hno], Hp as [Ho Hp].
  cbn [fold_left]. rewrite deliver_to_persistent.
  - apply IH; assumption.
  - destruct (callback l) as [| | id]; try discriminate. now exists id.
  - now apply negb_true_iff.
Qed.

Lemma persistent_filter (f : Listener -> bool) (ls : list Listener) :
  persistent ls = true -> persistent (filter f ls) = true.
Proof.
  unfold persistent. rewrite !forallb_forall. intros H l Hl.
  apply filter_In in Hl. apply H, Hl.
Qed.

Lemma dispatch_settled_persistent (type : string) (time : number)
    (others : list Listener) (p : PromiseState) (k : nat) :
  no_handlers others = true -> persistent others = true ->
  dispatchEvent type (mkSeekState time others p k)
  = mkSeekState time others p k.
Proof.
  intros Hno Hp. unfold dispatchEvent. cbn [listeners].
  apply fold_persistent; [apply no_handlers_filter | apply persistent_filter];
    assumption.
Qed.

Lemma dispatch_waiting_persistent (type : string) (time : number)
    (others : list Listener) :
  no_handlers others = true -> persistent others = true ->
  dispatchEvent type
    (mkSeekState time
       (others ++ [mkListener "seeked" handleSeeked true;
                   mkListener "error" handleError true]) Pending 0)
  = match outcome type with
    | Some p => mkSeekState time others p 1
    | None =>
        mkSeekState time
          (others ++ [mkListener "seeked" handleSeeked true;
                      mkListener "error" handleError true]) Pending 0
    end.
Proof.
  intros Hno Hp. unfold dispatchEvent. cbn [listeners].
  rewrite filter_app, fold_left_app.
  rewrite (fold_persistent type (filter _ others));
    [| apply no_handlers_filter; assumption
     | apply persistent_filter; assumption].
  assert (Hclean : forall ls,
            ls = [mkListener "seeked" handleSeeked true;
                  mkListener "error" handleError true]
            \/ ls = [mkListener "error" handleError true]
            \/ ls = [mkListener "seeked" handleSeeked true] ->
            filter (fun l => negb (same_listener "error" handleError l))
              (filter (fun l => negb (same_listener "seeked" handleSeeked l))
                 (others ++ ls))
            = others).
  { intros ls Hls. rewrite !filter_app.
    rewrite (filter_no_handlers "seeked" handleSeeked others Hno)
      by discriminate.
    rewrite (filter_no_handlers "error" handleError others Hno)
      by discriminate.
    destruct Hls as [-> | [-> | ->]]; cbn; apply app_nil_r. }
  destruct (outcome_cases type) as [[-> Ho] | [[-> Ho] | [Hs [He Ho]]]];
    rewrite Ho.
  - cbn [filter event_type String.eqb Ascii.eqb Bool.eqb andb fold_left].
    unfold deliver_to. cbn [callback once listeners].
    rewrite existsb_app. cbn [existsb].
    replace (same_listener "seeked" handleSeeked
               (mkListener "seeked" handleSeeked true)) with true
      by reflexivity.
    rewrite orb_true_r. cbn [orb run_callback].
    unfold resolve, cleanup, removeEventListener.
    cbn [listeners currentTime promise settle_calls].
    rewrite filter_app.
    rewrite (filter_no_handlers "seeked" handleSeeked others Hno)
      by discriminate.
    replace (filter (fun l => negb (same_listener "seeked" handleSeeked l))
               [mkListener "seeked" handleSeeked true;
                mkListener "error" handleError true])
      with [mkListener "error" handleError true] by reflexivity.
    rewrite (Hclean [mkListener "error" handleError true]) by tauto.
    reflexivity.
  - cbn [filter event_type String.eqb Ascii.eqb Bool.eqb andb fold_left].
    unfold deliver_to. cbn [callback once listeners].
    rewrite existsb_app. cbn [existsb].
    replace (same_listener "error" handleError
               (mkListener "seeked" handleSeeked true)) with false
      by reflexivity.
    replace (same_listener "error" handleError
               (mkListener "error" handleError true)) with true
      by reflexivity.
    rewrite !orb_true_r. cbn [orb run_callback].
    unfold reject, cleanup, removeEventListener.
    cbn [listeners currentTime promise settle_calls].
    rewrite filter_app.
    rewrite (filter_no_handlers "error" handleError others Hno)
      by discriminate.
    replace (filter (fun l => negb (same_listener "error" handleError l))
               [mkListener "seeked" handleSeeked true;
                mkListener "error" handleError true])
      with [mkListener "seeked" handleSeeked true] by reflexivity.
    rewrite (Hclean [mkListener "seeked" handleSeeked true]) by tauto.
    reflexivity.
  - cbn [filter event_type].
    replace (String.eqb "seeked" type) with false
      by (symmetry; apply String.eqb_neq; congruence).
    replace (String.eqb "error" type) with false
      by (symmetry; apply String.eqb_neq; congruence).
    reflexivity.
Qed.

Lemma seekVideo_fresh_state (time time0 : number) (others : list Listener) :
  no_handlers others = true ->
  seekVideo time (fresh_video time0 others)
  = mkSeekState time
      (others ++ [mkListener "seeked" handleSeeked true;
                  mkListener "error" handleError true]) Pending 0.
Proof.
  intros Hno.
  destruct (seekVideo_waiting time time0 others Hno) as [_ [_ Hl]].
  unfold seekVideo in *. cbn [listeners] in Hl. rewrite Hl. reflexivity.
Qed.

Lemma deliver_settled_persistent (events : list string) (time : number)
    (others : list Listener) (p : PromiseState) (k : nat) :
  no_handlers others = true -> persistent others = true ->
  deliver events (mkSeekState time others p k) = mkSeekState time others p k.
Proof.
  intros Hno Hp. induction events as [| type rest IH]; [reflexivity |].
  change (deliver (type :: rest) (mkSeekState time others p k))
    with (deliver rest (dispatchEvent type (mkSeekState time others p k))).
  rewrite dispatch_settled_persistent by assumption. exact IH.
Qed.

(** X12. When the other listeners on the element are not one-shot ones,
    the whole effect of a seek is known: until the first "seeked" or
    "error" the state is the one [seekVideo] left, and from then on it is
    the settled promise, one call of [resolve] or [reject], the requested
    position, and exactly the listener list the element had before the
    call: nothing of [seekVideo] stays behind and nothing else is
    removed. *)
Theorem seekVideo_restores_listeners (time time0 : number)
    (others : list Listener) (events : list string) :
  no_handlers others = true -> persistent others = true ->
  deliver events (seekVideo time (fresh_video time0 others))
  = match first_outcome events with
    | Some p => mkSeekState time others p 1
    | None =>
        mkSeekState time
          (others ++ [mkListener "seeked" handleSeeked true;
                      mkListener "error" handleError true]) Pending 0
    end.
Proof.
  intros Hno Hp. rewrite seekVideo_fresh_state by assumption.
  induction events as [| type rest IH]; [reflexivity |].
  cbn [first_outcome].
  match goal with
  | |- deliver (type :: rest) ?st = _ =>
      change (deliver (type :: rest) st)
        with (deliver rest (dispatchEvent type st))
  end.
  rewrite dispatch_waiting_persistent by assumption.
  destruct (outcome type) as [p |].
  - apply deliver_settled_persistent; assumption.
  - exact IH.
Qed.

Lemma seekVideo_restores_listeners_witness :
  deliver ["timeupdate"; "error"; "seeked"]
    (seekVideo (Fin (5 # 2))
       (fresh_video (of_Z 0)
          [mkListener "loadedmetadata" (external 0) false]))
  = mkSeekState (Fin (5 # 2))
      [mkListener "loadedmetadata" (external 0) false]
      (Rejected "seek failed") 1.
Proof.
  apply (seekVideo_restores_listeners (Fin (5 # 2)) (of_Z 0)
           [mkListener "loadedmetadata" (external 0) false]
           ["timeupdate"; "error"; "seeked"]); reflexivity.
Defined.

Lemma seekVideo_clear (time : number) (st : SeekState) :
  no_handlers (listeners st) = true -> Waiting (seekVideo time st).
Proof.
  intros Hno. unfold seekVideo, addEventListener.
  rewrite (no_handlers_unregistered "seeked" handleSeeked _ Hno)
    by discriminate.
  cbn [listeners currentTime promise settle_calls].
  rewrite existsb_app_last,
    (no_handlers_unregistered "error" handleError _ Hno) by discriminate.
  cbn [listeners currentTime promise settle_calls orb same_listener
       event_type callback String.eqb Ascii.eqb Bool.eqb andb].
  unfold Waiting, registered, own_types.
  cbn [listeners currentTime promise settle_calls].
  rewrite !existsb_app, !forallb_app.
  repeat split.
  - cbn. now rewrite !orb_true_r.
  - cbn. now rewrite !orb_true_r.
  - rewrite !andb_true_iff. repeat split; try reflexivity.
    unfold no_handlers in Hno. rewrite forallb_forall in *.
    intros l Hl. specialize (Hno l Hl). destruct (callback l);
      try discriminate. reflexivity.
Qed.

Lemma seek_round_settles (st : SeekState) (round : number * list string)
    (p : PromiseState) :
  no_handlers (listeners st) = true ->
  first_outcome (snd round) = Some p ->
  Settled p (seek_round st round).
Proof.
  intros Hno Hp. unfold seek_round.
  pose proof (deliver_waiting (snd round) _ (seekVideo_clear (fst round) st Hno))
    as H.
  rewrite Hp in H. exact H.
Qed.

(** X13. Seeks in sequence, as the generation run issues them on one video
    element: if the element carries no handler of [seekVideo] at the start
    and every seek receives a "seeked" or an "error", then each seek's
    promise is settled by that seek's own first signal, with exactly one
    call of [resolve] or [reject], and no handler is left on the element
    for the next seek. *)
Theorem seeks_in_sequence (st : SeekState)
    (rounds : list (number * list string)) :
  no_handlers (listeners st) = true ->
  Forall (fun round => first_outcome (snd round) <> None) rounds ->
  Forall2
    (fun round after =>
       first_outcome (snd round) = Some (promise after)
       /\ settle_calls after = 1%nat
       /\ registered "seeked" handleSeeked after = false
       /\ registered "error" handleError after = false)
    rounds (seek_rounds st rounds).
Proof.
  intros Hno Hall. revert st Hno.
  induction Hall as [| round rest Hround Hrest IH]; intros st Hno;
    cbn [seek_rounds]; constructor.
  - destruct (first_outcome (snd round)) as [p |] eqn:E; [| congruence].
    pose proof (seek_round_settles st round p Hno E) as Hs.
    destruct (Settled_facts p _ Hs) as [Hp [Hc [H1 H2]]].
    rewrite Hp. repeat split; assumption.
  - apply IH.
    destruct (first_outcome (snd round)) as [p |] eqn:E; [| congruence].
    destruct (seek_round_settles st round p Hno E) as [_ [_ Hn]]. exact Hn.
Qed.

Lemma seeks_in_sequence_witness :
  Forall2
    (fun round after =>
       first_outcome (snd round) = Some (promise after)
       /\ settle_calls after = 1%nat
       /\ registered "seeked" handleSeeked after = false
       /\ registered "error" handleError after = false)
    [(Fin (1 # 2), ["seeked"]); (Fin 1, ["timeupdate"; "seeked"; "error"])]
    (seek_rounds (fresh_video (of_Z 0) [])
       [(Fin (1 # 2), ["seeked"]);
        (Fin 1, ["timeupdate"; "seeked"; "error"])]).
Proof.
  apply (seeks_in_sequence (fresh_video (of_Z 0) [])
           [(Fin (1 # 2), ["seeked"]);
            (Fin 1, ["timeupdate"; "seeked"; "error"])]).
  - reflexivity.
  - repeat constructor; cbn; discriminate.
Defined.

(** ** The generation run *)

Lemma capture_scenes_spec (capture : number -> option ImageData) (w h : Z)
    (cfg : Config) (points : list number) (i : Z) (acc : list Scene) :
  match capture_scenes capture w h cfg i points acc with
  | Some scenes =>
      exists new,
        scenes = (acc ++ new)%list
        /\ map timestamp new = points
        /\ map index new = Zseq i (List.length points)
        /\ Forall (scene_recorded capture w h cfg) new
  | None => exists t, In t points /\ capture t = None
  end.
Proof.
  revert i acc. induction points as [| time rest IH]; intros i acc;
    cbn [capture_scenes].
  - exists []. rewrite app_nil_r. repeat split. constructor.
  - destruct (capture time) as [frameData |] eqn:Ecap.
    + specialize (IH (i + 1)%Z
                     (acc ++ [capture_scene i time frameData w h cfg])%list).
      destruct (capture_scenes capture w h cfg (i + 1) rest _) as [scenes |].
      * destruct IH as [new [-> [Ht [Hi Hf]]]].
        exists (capture_scene i time frameData w h cfg :: new).
        rewrite <- app_assoc. cbn [app map List.length Zseq timestamp index
                                   capture_scene].
        rewrite Ht, Hi. repeat split. constructor; [| exact Hf].
        exists frameData. cbn. repeat split. exact Ecap.
      * destruct IH as [t [Hin Hnone]]. exists t. split; [now right | exact Hnone].
    + exists time. split; [now left | exact Ecap].
Qed.

(** X14. The capture loop is all or nothing.  If the frame at one capture
    point cannot be read, the loop yields no scene list at all.  Otherwise
    it yields one scene per capture point, in order: scene k carries index
    k, the k-th capture point as its timestamp, the analysis of the frame
    read there and the sentence [buildScenePrompt] makes of them. *)
Theorem capture_loop_all_or_nothing (capture : number -> option ImageData)
    (w h : Z) (cfg : Config) (points : list number) :
  match capture_scenes capture w h cfg 0 points [] with
  | Some scenes =>
      map timestamp scenes = points
      /\ map index scenes = Zseq 0 (List.length points)
      /\ Forall (scene_recorded capture w h cfg) scenes
      /\ (forall t, In t points -> capture t <> None)
  | None => exists t, In t points /\ capture t = None
  end.
Proof.
  pose proof (capture_scenes_spec capture w h cfg points 0 []) as H.
  destruct (capture_scenes capture w h cfg 0 points []) as [scenes |];
    [| exact H].
  destruct H as [new [-> [Ht [Hi Hf]]]]. cbn [app].
  repeat split; try assumption.
  intros t Hin Hnone. rewrite <- Ht in Hin. apply in_map_iff in Hin.
  destruct Hin as [sc [<- Hsc]]. rewrite Forall_forall in Hf.
  destruct (Hf sc Hsc) as [frameData [Hcap _]]. congruence.
Qed.

(** X15. A click on "Generate Prompt" never touches the video source, the
    metadata or the pulse counter, and it replaces the displayed results
    only by those of a complete run: either the scene list and the compiled
    prompt are both unchanged (a guard failed, or a frame could not be
    read), or the status is the ready message, every capture point has its
    scene, and the compiled prompt is the one built from these scenes. *)
Theorem generate_keeps_or_replaces (refs_ready : bool)
    (capture : number -> option ImageData) (w h : Z) (cfg : Config)
    (st : PageState) :
  let st' := handleGeneratePrompts refs_ready capture w h cfg st in
  videoSource st' = videoSource st /\ videoMeta st' = videoMeta st
  /\ pulse st' = pulse st
  /\ ((scenePrompts st' = scenePrompts st
       /\ compiledPrompt st' = compiledPrompt st
       /\ status st' <> ready_status)
      \/ (status st' = ready_status /\ processing st' = false
          /\ (exists meta,
                videoMeta st = Some meta
                /\ map timestamp (scenePrompts st')
                   = buildCapturePoints (duration meta)
                       (count_of (sceneCount (videoMeta st)
                                    (granularity cfg))))
          /\ Forall (scene_recorded capture w h cfg) (scenePrompts st')
          /\ compiledPrompt st'
             = buildMasterPrompt (scenePrompts st') (projectTitle cfg)
                 (audienceNotes cfg) (tone cfg) (objective cfg)
                 (stylePreset cfg) (focusAreas cfg) (customDirectives cfg))).
Proof.
  intros st'. subst st'.
  destruct (handleGeneratePrompts_keeps refs_ready capture w h cfg st)
    as [Hs [Hm Hp]].
  split; [exact Hs |]. split; [exact Hm |]. split; [exact Hp |].
  unfold handleGeneratePrompts.
  destruct (videoSource st) as [src |] eqn:Es;
    destruct (videoMeta st) as [meta |] eqn:Em;
    try (left; cbn; repeat split; discriminate).
  destruct (negb refs_ready); [left; cbn; repeat split; discriminate |].
  pose proof (capture_loop_all_or_nothing capture w h cfg
                (buildCapturePoints (duration meta)
                   (count_of (sceneCount (Some meta) (granularity cfg)))))
    as H.
  destruct (capture_scenes capture w h cfg 0 _ []) as [scenes |].
  - right. destruct H as [Ht [_ [Hf _]]]. cbn.
    repeat split; try assumption. exists meta. split; [reflexivity | exact Ht].
  - left. cbn. repeat split. discriminate.
Qed.

Ltac split_ifs :=
  repeat match goal with
         | |- context [if ?b then _ else _] => destruct b
         end.

Lemma describeColor_plain (r g b : number) :
  single_line (describeColor r g b) = true.
Proof.
  unfold describeColor. destruct (rgbToHsl r g b) as [[h s] l].
  cbn [find_descriptor]. split_ifs; reflexivity.
Qed.

Lemma analyzeFrame_labels_plain (frameData : ImageData) (w h : Z) :
  let a := analyzeFrame frameData w h in
  single_line (palette a) = true /\ single_line (lighting a) = true
  /\ single_line (mood a) = true /\ single_line (energy a) = true
  /\ (forall s, contrast a = Some s -> single_line s = true)
  /\ (forall s, saturation a = Some s -> single_line s = true).
Proof.
  unfold analyzeFrame.
  destruct (sampled (frame_sums (data frameData) w h) =? 0)%Z.
  - cbn. repeat split; discriminate.
  - destruct (rgbToHsl _ _ _) as [[hue s] l].
    cbn [palette lighting mood energy contrast saturation].
    split; [apply describeColor_plain |].
    split; [split_ifs; reflexivity |].
    split; [split_ifs; reflexivity |].
    split; [split_ifs; reflexivity |].
    split; intros s0 H; injection H as <-; split_ifs; reflexivity.
Qed.

Lemma present_single_line (field : option string) :
  (forall s, field = Some s -> single_line s = true) ->
  forallb single_line (present field) = true.
Proof.
  intros H. destruct field as [s |]; [| reflexivity].
  cbn [present]. destruct (nonempty s); [| reflexivity].
  cbn. now rewrite (H s eq_refl).
Qed.

Lemma buildScenePrompt_plain (i : Z) (time : number) (a : SceneAnalysis)
    (focus : list string) (tone0 objective0 style0 : string) :
  single_line (palette a) = true -> single_line (lighting a) = true ->
  single_line (mood a) = true -> single_line (energy a) = true ->
  (forall s, contrast a = Some s -> single_line s = true) ->
  (forall s, saturation a = Some s -> single_line s = true) ->
  single_line tone0 = true -> single_line objective0 = true ->
  single_line style0 = true -> forallb single_line focus = true ->
  single_line (buildScenePrompt i time a focus tone0 objective0 style0) = true
  /\ nonempty (buildScenePrompt i time a focus tone0 objective0 style0)
     = true.
Proof.
  intros Hp Hl Hm He Hc Hs Ht Ho Hst Hf. split; [| reflexivity].
  unfold buildScenePrompt.
  rewrite !single_line_app, Z_toString_single_line, formatTime_single_line,
    capitalize_single_line, Ht, Ho, Hst.
  rewrite single_line_join; [| reflexivity |].
  - destruct focus as [| id rest]; [reflexivity |].
    rewrite single_line_app, focus_labels_single_line by exact Hf.
    reflexivity.
  - rewrite !forallb_app, !present_single_line; try assumption;
      try reflexivity; intros s E; injection E as <-; assumption.
Qed.

Lemma capture_scene_plain (i : Z) (time : number) (frameData : ImageData)
    (w h : Z) (cfg : Config) :
  plain_options cfg = true ->
  plain_scene (capture_scene i time frameData w h cfg) = true.
Proof.
  unfold plain_options. rewrite !andb_true_iff.
  intros [[[Ht Ho] Hs] Hf].
  destruct (analyzeFrame_labels_plain frameData w h)
    as [Hp [Hl [Hm [He [Hc Hsat]]]]].
  destruct (buildScenePrompt_plain i time (analyzeFrame frameData w h)
              (focusAreas cfg) (tone cfg) (objective cfg) (stylePreset cfg)
              Hp Hl Hm He Hc Hsat Ht Ho Hs Hf) as [Hline Hne].
  unfold plain_scene, capture_scene. cbn [analysis summary].
  rewrite Hp, Hl, He, Hline, Hne. reflexivity.
Qed.

Lemma scene_recorded_plain (capture : number -> option ImageData) (w h : Z)
    (cfg : Config) (scenes : list Scene) :
  plain_options cfg = true ->
  Forall (scene_recorded capture w h cfg) scenes ->
  forallb plain_scene scenes = true.
Proof.
  intros Hcfg Hf. apply forallb_forall. intros sc Hsc.
  rewrite Forall_forall in Hf. destruct (Hf sc Hsc) as [fd [_ [Ha Hsum]]].
  pose proof (capture_scene_plain (index sc) (timestamp sc) fd w h cfg Hcfg)
    as H.
  unfold plain_scene, capture_scene in H. cbn [analysis summary] in H.
  unfold plain_scene. rewrite Ha, Hsum, Ha. exact H.
Qed.

(** X16. A run on a loaded clip.  With a source, stored metadata of a
    finite duration d > 0, an integer granularity g >= 0, both refs set and
    every frame readable, the click ends with the ready message and with
    exactly n scenes, n being the scene count of the page (3 to 10); they
    are indexed 0, 1, 2, ... and their timestamps are the capture points
    for n.  If moreover the title, the notes, the options and the focus ids
    are free of newlines, the compiled prompt carries one "ingredient" line
    and one instruction line per scene: its lines are the header lines, the
    two headings each followed by one line per scene, and the custom
    directives. *)
Theorem generate_on_loaded_clip (capture : number -> option ImageData)
    (w h : Z) (cfg : Config) (st : PageState) (src : VideoSource)
    (d : Q) (mw mh g : Z) :
  videoSource st = Some src ->
  videoMeta st = Some (mkVideoMeta (Fin d) mw mh) ->
  0 < d -> granularity cfg = of_Z g -> (0 <= g)%Z ->
  (forall t, capture t <> None) ->
  let st' := handleGeneratePrompts true capture w h cfg st in
  let n := count_of (sceneCount (videoMeta st) (granularity cfg)) in
  status st' = ready_status
  /\ (3 <= n <= 10)%Z
  /\ Z.of_nat (List.length (scenePrompts st')) = n
  /\ map index (scenePrompts st') = Zseq 0 (Z.to_nat n)
  /\ map timestamp (scenePrompts st') = buildCapturePoints (Fin d) n
  /\ (plain_config (projectTitle cfg) (audienceNotes cfg) (tone cfg)
        (objective cfg) (stylePreset cfg) (focusAreas cfg) = true ->
      lines (compiledPrompt st')
      = prompt_lines (scenePrompts st') (projectTitle cfg) (audienceNotes cfg)
          (tone cfg) (objective cfg) (stylePreset cfg) (focusAreas cfg)
          (customDirectives cfg)).
Proof.
  intros Hsrc Hmeta Hd Hg Hg0 Hcap st' n. subst st' n.
  unfold handleGeneratePrompts. rewrite Hsrc, Hmeta. cbn [negb duration].
  rewrite Hg, sceneCount_finite, count_of_of_Z.
  pose proof (scene_count_Z_range d g) as Hn.
  set (n := scene_count_Z d g) in *.
  pose proof (capture_loop_all_or_nothing capture w h cfg
                (buildCapturePoints (Fin d) n)) as H.
  destruct (capture_scenes capture w h cfg 0 _ []) as [scenes |].
  - destruct H as [Ht [Hi [Hf _]]].
    cbn [status scenePrompts compiledPrompt].
    assert (Hlen : List.length (buildCapturePoints (Fin d) n) = Z.to_nat n).
    { rewrite buildCapturePoints_length. cbn [truthy].
      rewrite Qeq_bool_false by lra. reflexivity. }
    split; [reflexivity |]. split; [exact Hn |].
    split; [rewrite <- (length_map timestamp), Ht, Hlen; lia |].
    split; [rewrite Hi, Hlen; reflexivity |].
    split; [exact Ht |].
    intros Hplain.
    apply buildMasterPrompt_prompt_lines; [exact Hplain |].
    apply (scene_recorded_plain capture w h cfg); [| exact Hf].
    unfold plain_config in Hplain. unfold plain_options.
    rewrite !andb_true_iff in *. tauto.
  - destruct H as [t [_ Hnone]]. now apply Hcap in Hnone.
Qed.

Lemma generate_on_loaded_clip_witness :
  let cfg := mkConfig (of_Z 4) "moody noir" "narrative prompt"
               "hyper-detailed" ["visuals"; "lighting"] "Harbour at night"
               EmptyString EmptyString in
  let st := mkPageState (Some (mkVideoSource "blob:1" (mkFile "video/mp4")))
              (Some (mkVideoMeta (Fin 40) 640 480)) false EmptyString []
              EmptyString 1 in
  let st' :=
    handleGeneratePrompts true (fun _ => Some (mkImageData [0; 0; 0; 255]%Z))
      1 1 cfg st in
  status st' = ready_status
  /\ Z.of_nat (List.length (scenePrompts st')) = 10%Z
  /\ List.length (lines (compiledPrompt st')) = 26%nat.
Proof.
  destruct (generate_on_loaded_clip
              (fun _ => Some (mkImageData [0; 0; 0; 255]%Z)) 1 1
              (mkConfig (of_Z 4) "moody noir" "narrative prompt"
                 "hyper-detailed" ["visuals"; "lighting"] "Harbour at night"
                 EmptyString EmptyString)
              (mkPageState
                 (Some (mkVideoSource "blob:1" (mkFile "video/mp4")))
                 (Some (mkVideoMeta (Fin 40) 640 480)) false EmptyString []
                 EmptyString 1)
              (mkVideoSource "blob:1" (mkFile "video/mp4")) 40 640 480 4)
    as [Hs [_ [Hlen [_ [_ Hlines]]]]];
    try reflexivity; try lia; try discriminate.
  split; [exact Hs |]. split; [exact Hlen |].
  rewrite Hlines by reflexivity. unfold prompt_lines.
  rewrite !length_app, !length_map. cbn [List.length focus_entry
    audience_entry nonempty projectTitle audienceNotes focusAreas
    customDirectives tone objective stylePreset].
  apply (f_equal Z.to_nat) in Hlen. rewrite Nat2Z.id in Hlen.
  rewrite Hlen. reflexivity.
Defined.

(** ** Frame analysis: what the result depends on *)

Lemma same_rgb_length_bounded (n : nat) (a b : list Z) :
  (List.length a <= n)%nat -> same_rgb a b = true ->
  List.length a = List.length b.
Proof.
  revert a b. induction n as [| n IH]; intros a b Hn H;
    destruct a as [| r1 [| g1 [| b1 [| a1 rest1]]]];
    destruct b as [| r2 [| g2 [| b2 [| a2 rest2]]]];
    cbn in H, Hn; try discriminate; try reflexivity; try lia.
  rewrite !andb_true_iff in H. destruct H as [_ Hrest].
  cbn [List.length]. do 4 f_equal. apply IH; [lia | exact Hrest].
Qed.

Lemma same_rgb_length (a b : list Z) :
  same_rgb a b = true -> List.length a = List.length b.
Proof. apply (same_rgb_length_bounded (List.length a)). lia. Qed.

Lemma same_rgb_nth (a b : list Z) (k : nat) :
  same_rgb a b = true ->
  nth_error a (4 * k) = nth_error b (4 * k)
  /\ nth_error a (4 * k + 1) = nth_error b (4 * k + 1)
  /\ nth_error a (4 * k + 2) = nth_error b (4 * k + 2).
Proof.
  revert a b. induction k as [| k IH]; intros a b H;
    destruct a as [| r1 [| g1 [| b1 [| a1 rest1]]]];
    destruct b as [| r2 [| g2 [| b2 [| a2 rest2]]]];
    cbn in H; try discriminate; try (repeat split; reflexivity);
    rewrite !andb_true_iff, !Z.eqb_eq in H;
    destruct H as [[[-> ->] ->] Hrest].
  - repeat split.
  - replace (4 * S k)%nat with (S (S (S (S (4 * k))))) by lia.
    cbn [nth_error Nat.add]. apply IH, Hrest.
Qed.

Lemma same_rgb_at (a b : list Z) (i : Z) :
  same_rgb a b = true -> (0 <= i)%Z -> (i mod 4 = 0)%Z ->
  data_at a i = data_at b i
  /\ data_at a (i + 1) = data_at b (i + 1)
  /\ data_at a (i + 2) = data_at b (i + 2).
Proof.
  intros H Hi Hmod.
  assert (Hk : exists k : nat, i = (4 * Z.of_nat k)%Z).
  { exists (Z.to_nat (i / 4)). rewrite Z2Nat.id by (apply Z.div_pos; lia).
    pose proof (Z.div_mod i 4 ltac:(lia)). lia. }
  destruct Hk as [k ->].
  destruct (same_rgb_nth a b k H) as [H0 [H1 H2]].
  unfold data_at.
  replace (Z.to_nat (4 * Z.of_nat k)) with (4 * k)%nat by lia.
  replace (Z.to_nat (4 * Z.of_nat k + 1)) with (4 * k + 1)%nat by lia.
  replace (Z.to_nat (4 * Z.of_nat k + 2)) with (4 * k + 2)%nat by lia.
  rewrite H0, H1, H2. repeat split.
Qed.

Lemma sample_loop_same_rgb (fuel : nat) (a b : list Z) (stride i : Z)
    (acc : FrameSums) :
  same_rgb a b = true -> (stride mod 4 = 0)%Z -> (0 <= stride)%Z ->
  (0 <= i)%Z -> (i mod 4 = 0)%Z ->
  sample_loop fuel a stride i acc = sample_loop fuel b stride i acc.
Proof.
  intros H Hs4 Hs0. revert i acc.
  induction fuel as [| fuel IH]; intros i acc Hi Hi4; cbn [sample_loop];
    [reflexivity |].
  rewrite (same_rgb_length a b H).
  destruct (i <? Z.of_nat (List.length b))%Z; [| reflexivity].
  destruct (same_rgb_at a b i H Hi Hi4) as [E0 [E1 E2]].
  unfold sample_pixel. rewrite E0, E1, E2.
  apply IH; [lia |]. rewrite Z.add_mod, Hi4, Hs4 by lia. reflexivity.
Qed.

(** X17. The analysis never reads the alpha channel: two buffers of whole
    pixels with the same red, green and blue bytes get the same analysis,
    whatever their alpha bytes and whatever the frame size passed. *)
Theorem analyzeFrame_ignores_alpha (a b : list Z) (w h : Z) :
  same_rgb a b = true ->
  analyzeFrame (mkImageData a) w h = analyzeFrame (mkImageData b) w h.
Proof.
  intros H. unfold analyzeFrame. cbn [data].
  assert (E : frame_sums a w h = frame_sums b w h).
  { unfold frame_sums. rewrite (same_rgb_length a b H).
    pose proof (frame_stride_min w h). pose proof (frame_stride_mod4 w h).
    apply sample_loop_same_rgb; try assumption; try lia. reflexivity. }
  rewrite E. reflexivity.
Qed.

Lemma analyzeFrame_ignores_alpha_witness :
  analyzeFrame (mkImageData [200; 30; 30; 255; 10; 20; 250; 255]%Z) 2 1
  = analyzeFrame (mkImageData [200; 30; 30; 0; 10; 20; 250; 17]%Z) 2 1.
Proof.
  apply (analyzeFrame_ignores_alpha
           [200; 30; 30; 255; 10; 20; 250; 255]%Z
           [200; 30; 30; 0; 10; 20; 250; 17]%Z 2 1).
  reflexivity.
Defined.

(** ** Colour conversion *)









